(** * The nearby-places lookup of [src/utils/osm.ts]

    A shallow embedding of [overpassFetch] and [fetchNearbyOsmPlaces]: the
    Overpass query, the three-attempt fetch over the mirror list, the
    normalisation of raw elements into places, the text filter, the limit and
    the sixty-second cache.

    JavaScript values are modelled as they reach the code: a parsed response is
    an arbitrary JSON value, a number may be [NaN] or infinite, a property read
    on [null] throws.  Strings are sequences of ASCII characters.  The module
    state (the cache), the clock read by [Date.now()], the network and the
    timers live in an explicit [World] that every asynchronous function
    threads. *)

From Stdlib Require Import ZArith QArith Qcanon Qround Lqa String Ascii List Lia DecimalString.
From stdpp Require Import base decidable option list gmap strings.
Import ListNotations.

Local Open Scope string_scope.
Local Open Scope list_scope.
Local Open Scope Z_scope.

(** [simpl] may unfold an append whose first argument starts with a
    character. *)
#[local] Arguments String.append !_ _ / : simpl nomatch.

#[local] Set Warnings "-register-all".

(** ** Strings *)

Module JsString.

(** The ASCII part of ECMAScript's WhiteSpace and LineTerminator classes:
    TAB, LF, VT, FF, CR and SPACE. *)
Definition isWhiteSpace (c : ascii) : bool :=
  let n := N_of_ascii c in
  ((9 <=? n) && (n <=? 13) || (n =? 32))%N.

Fixpoint trimStart (s : string) : string :=
  match s with
  | String c s' => if isWhiteSpace c then trimStart s' else s
  | EmptyString => EmptyString
  end.

Fixpoint trimEnd (s : string) : string :=
  match s with
  | EmptyString => EmptyString
  | String c s' =>
      match trimEnd s' with
      | EmptyString => if isWhiteSpace c then EmptyString else String c EmptyString
      | t => String c t
      end
  end.

(** [String.prototype.trim] *)
Definition trim (s : string) : string := trimEnd (trimStart s).

Definition lowerChar (c : ascii) : ascii :=
  let n := N_of_ascii c in
  if ((65 <=? n) && (n <=? 90))%N then ascii_of_N (n + 32) else c.

(** [String.prototype.toLowerCase] *)
Fixpoint toLowerCase (s : string) : string :=
  match s with
  | EmptyString => EmptyString
  | String c s' => String (lowerChar c) (toLowerCase s')
  end.

(** [String.prototype.includes]: [t] occurs in [s] at some position. *)
Fixpoint includes (s t : string) : bool :=
  String.prefix t s ||
  match s with
  | EmptyString => false
  | String _ s' => includes s' t
  end.

(** [Array.prototype.join] on an array of strings. *)
Fixpoint join (sep : string) (l : list string) : string :=
  match l with
  | [] => ""
  | [x] => x
  | x :: rest => x +:+ sep +:+ join sep rest
  end.

(** A truthy string is a non-empty one. *)
Definition nonEmpty (s : string) : bool :=
  match s with EmptyString => false | _ => true end.

Definition digits (n : N) : string := NilEmpty.string_of_uint (N.to_uint n).

Fixpoint zeros (k : nat) : string :=
  match k with O => "" | S k' => String "0" (zeros k') end.

Definition newline : string := String (ascii_of_N 10) EmptyString.

End JsString.

(** ** Numbers *)

(** A JavaScript number: every finite double is a rational, so finite values
    are canonical rationals; [NaN] and the two infinities are kept apart.  The
    program only compares numbers, clamps them and prints them. *)
Inductive number : Type :=
  | NaN
  | Infinity (negative : bool)
  | Fin (q : Qc).

Definition num (z : Z) : number := Fin (Q2Qc (inject_Z z)).

(** The decimal literal [m / 10^e], for readable constants such as
    [dec 129716 4] for 12.9716. *)
Definition dec (m : Z) (e : nat) : number :=
  Fin (Q2Qc (Qmake m (Z.to_pos (10 ^ Z.of_nat e)))).

Module JsNumber.

(** [a < b] on numbers; false as soon as one side is [NaN]. *)
Definition lt (a b : number) : bool :=
  match a, b with
  | NaN, _ | _, NaN => false
  | Infinity true, Infinity true => false
  | Infinity true, _ => true
  | _, Infinity true => false
  | Infinity false, _ => false
  | _, Infinity false => true
  | Fin x, Fin y => bool_decide (x < y)%Qc
  end.

Definition isNaN (a : number) : bool :=
  match a with NaN => true | _ => false end.

(** [Math.min(a, b)] and [Math.max(a, b)]: [NaN] is contagious. *)
Definition min (a b : number) : number :=
  if isNaN a || isNaN b then NaN else if lt b a then b else a.

Definition max (a b : number) : number :=
  if isNaN a || isNaN b then NaN else if lt a b then b else a.

(** The integer part of a rational, rounding towards zero. *)
Definition truncate (q : Qc) : Z := Z.quot (Qnum q) (Z.pos (Qden q)).

(** The integer closest to [a * 10^f], the larger one on a tie. *)
Definition nearest (f : nat) (a : Qc) : Z :=
  Qfloor (a * inject_Z (10 ^ Z.of_nat f) + (1 # 2)).

(** [a <= n <= b] for a number and two integer bounds. *)
Definition between (a : Z) (n : number) (b : Z) : Prop :=
  match n with
  | Fin q => (Q2Qc (inject_Z a) <= q)%Qc /\ (q <= Q2Qc (inject_Z b))%Qc
  | _ => False
  end.

End JsNumber.

(** What the host's [Number::toString] prints.  The shortest round-trip digits
    of a double are a property of the binary format, so the printer stays a
    parameter of the development; every theorem holds for every printer. *)
Class Host : Type := {
  number_to_string : number -> string
}.

Module DecimalHost.

(** A printer that agrees with [Number::toString] on the integers below
    10^21 and on the non-finite values.  It instantiates [Host] in every
    closed example, and only integer-valued numbers reach it there. *)
Definition print (n : number) : string :=
  match n with
  | NaN => "NaN"
  | Infinity false => "Infinity"
  | Infinity true => "-Infinity"
  | Fin q =>
      let sign := if (Qnum q <? 0) then "-" else "" in
      let int := sign +:+ JsString.digits (Z.abs_N (Qnum q)) in
      match Qden q with
      | xH => int
      | d => int +:+ "/" +:+ JsString.digits (Npos d)
      end
  end.

Definition host : Host := {| number_to_string := print |}.

End DecimalHost.

Section Formatting.
Context `{Host}.

(** [Number.prototype.toFixed(f)] (ECMA-262, 21.1.3.3): the integer [n]
    closest to [x * 10^f], the larger one on a tie, printed with [f]
    fraction digits; the sign is split off first, and values of 10^21 and
    more are printed by [Number::toString]. *)
Definition toFixed (f : nat) (x : number) : string :=
  match x with
  | Fin q =>
      let negative := bool_decide (q < Q2Qc 0)%Qc in
      let a := if negative then (- q)%Qc else q in
      let m :=
        if bool_decide (Q2Qc (inject_Z (10 ^ 21)) <= a)%Qc then number_to_string (Fin a)
        else
          let n := JsNumber.nearest f a in
          let m := JsString.digits (Z.to_N n) in
          match f with
          | O => m
          | _ =>
              let k := String.length m in
              let m := if (k <=? f)%nat then JsString.zeros (f + 1 - k) +:+ m else m in
              let k := String.length m in
              String.substring 0 (k - f) m +:+ "." +:+ String.substring (k - f) f m
          end
      in (if negative then "-" else "") +:+ m
  | _ => number_to_string x
  end.

End Formatting.

(** ** Values and exceptions *)

(** A value as the code sees it: what [JSON.parse] builds, plus [undefined],
    which property reads produce.  An object is the list of its own
    properties; a read takes the first binding of a key. *)
Inductive JsVal : Type :=
  | VUndef
  | VNull
  | VBool (b : bool)
  | VNum (n : number)
  | VStr (s : string)
  | VArr (items : list JsVal)
  | VObj (props : list (string * JsVal)).

(** A thrown value, and whether [instanceof Error] holds of it. *)
Inductive Thrown : Type :=
  | ErrorObject (message : string)
  | NotAnError (what : string).

(** The result of evaluating an expression that may throw. *)
Inductive Outcome (A : Type) : Type :=
  | Returns (a : A)
  | Throws (e : Thrown).
Arguments Returns {A} a.
Arguments Throws {A} e.

Definition typeError : Thrown := ErrorObject "TypeError".

Module Js.

Definition isNullish (v : JsVal) : bool :=
  match v with VUndef | VNull => true | _ => false end.

Fixpoint lookupProp (k : string) (props : list (string * JsVal)) : JsVal :=
  match props with
  | [] => VUndef
  | (k', v) :: rest => if String.eqb k k' then v else lookupProp k rest
  end.

(** [v.k] for the keys the program reads ([elements], [tags], [lat], [lon],
    [center], [type], [id] and tag names), none of which is inherited from a
    prototype: an own property of an object, [undefined] on any other value,
    a [TypeError] on [null] and [undefined]. *)
Definition get (v : JsVal) (k : string) : Outcome JsVal :=
  match v with
  | VUndef | VNull => Throws typeError
  | VObj props => Returns (lookupProp k props)
  | _ => Returns VUndef
  end.

(** [v?.k] *)
Definition getOpt (v : JsVal) (k : string) : JsVal :=
  match v with
  | VObj props => lookupProp k props
  | _ => VUndef
  end.

(** [v[k]] on a value known not to be nullish. *)
Definition prop (v : JsVal) (k : string) : JsVal := getOpt v k.

(** [typeof v === 'number'] *)
Definition isNumber (v : JsVal) : bool :=
  match v with VNum _ => true | _ => false end.

(** ToBoolean *)
Definition truthy (v : JsVal) : bool :=
  match v with
  | VUndef | VNull => false
  | VBool b => b
  | VNum NaN => false
  | VNum (Infinity _) => true
  | VNum (Fin q) => negb (bool_decide (q = Q2Qc 0))
  | VStr s => JsString.nonEmpty s
  | VArr _ | VObj _ => true
  end.

(** [a || b] *)
Definition or (a b : JsVal) : JsVal := if truthy a then a else b.

(** [a ?? b] *)
Definition coalesce (a b : JsVal) : JsVal := if isNullish a then b else a.

Definition hasOwn (k : string) (props : list (string * JsVal)) : bool :=
  existsb (fun kv => String.eqb k (fst kv)) props.

End Js.

Section Conversions.
Context `{Host}.

(** ToString, as template literals and [Array.prototype.join] apply it.  An
    array prints its items separated by commas, [null] and [undefined] items
    as nothing.  A parsed object prints as [[object Object]] unless it has an
    own [toString] property, which cannot be called: a [TypeError]. *)
Fixpoint toStr (v : JsVal) : Outcome string :=
  match v with
  | VUndef => Returns "undefined"
  | VNull => Returns "null"
  | VBool true => Returns "true"
  | VBool false => Returns "false"
  | VNum n => Returns (number_to_string n)
  | VStr s => Returns s
  | VArr items =>
      (fix items_str (l : list JsVal) : Outcome string :=
         match l with
         | [] => Returns ""
         | x :: rest =>
             match (if Js.isNullish x then Returns "" else toStr x) with
             | Throws e => Throws e
             | Returns sx =>
                 match rest with
                 | [] => Returns sx
                 | _ =>
                     match items_str rest with
                     | Throws e => Throws e
                     | Returns sr => Returns (sx +:+ "," +:+ sr)
                     end
                 end
             end
         end) items
  | VObj props =>
      if Js.hasOwn "toString" props then Throws typeError
      else Returns "[object Object]"
  end.

(** [Array.prototype.join(sep)] on an array of values. *)
Fixpoint joinValues (sep : string) (l : list JsVal) : Outcome string :=
  match l with
  | [] => Returns ""
  | x :: rest =>
      match (if Js.isNullish x then Returns "" else toStr x) with
      | Throws e => Throws e
      | Returns sx =>
          match rest with
          | [] => Returns sx
          | _ =>
              match joinValues sep rest with
              | Throws e => Throws e
              | Returns sr => Returns (sx +:+ sep +:+ sr)
              end
          end
      end
  end.

(** [v.trim()]: only a string has the method. *)
Definition callTrim (v : JsVal) : Outcome string :=
  match v with
  | VStr s => Returns (JsString.trim s)
  | _ => Throws typeError
  end.

End Conversions.

(** ** Data of [osm.ts] *)

Module OsmLatLng.
Record t : Type := make { lat : number; lng : number }.
End OsmLatLng.

Module OsmPlace.
Record t : Type := make {
  id : string;
  name : string;
  address : string;
  lat : number;
  lng : number;
  tags : JsVal
}.
End OsmPlace.

(** The members of [options.kinds]. *)
Inductive Kind : Type := restaurant | hospital | police | attraction | bus_station.

Module Options.
Record t : Type := make {
  radiusMeters : number;
  kinds : list Kind;
  limit : option number;
  query : option string
}.
End Options.

(** A value of the module-level [cache] map. *)
Record CacheEntry : Type := { at_ : Z; data : list OsmPlace.t }.

(** ** The world an asynchronous call runs in *)

(** What the network does with one request: [fetch] rejects, or it resolves
    with a status and a body that [res.json()] parses or rejects. *)
Inductive Reply : Type :=
  | NetworkError (e : Thrown)
  | Response (status : N) (json : Outcome JsVal).

(** [took] is the time in ms until [fetch] settles; reading the body takes
    none. *)
Record Exchange : Type := { took : N; reply : Reply }.

(** What a run does that an observer outside can see. *)
Inductive Event : Type :=
  | Request (endpoint body : string)
  | Sleep (ms : Z).

(** Calls are run one after the other, each to its end; a list handed to a
    caller is a value that nobody changes afterwards. *)
Record World : Type := {
  cache : gmap string CacheEntry;
  now : Z;                        (* the value of [Date.now()], in ms *)
  network : nat -> Exchange;      (* what the n-th request sent will meet *)
  requests : nat;                 (* how many requests have been sent *)
  trace : list Event              (* requests and timers, oldest first *)
}.

Definition Async (A : Type) : Type := World -> Outcome A * World.

Module Async.

Definition ret {A} (a : A) : Async A := fun w => (Returns a, w).

Definition throw {A} (e : Thrown) : Async A := fun w => (Throws e, w).

Definition lift {A} (o : Outcome A) : Async A := fun w => (o, w).

Definition bind {A B} (c : Async A) (k : A -> Async B) : Async B :=
  fun w =>
    match c w with
    | (Returns a, w') => k a w'
    | (Throws e, w') => (Throws e, w')
    end.

(** [try { c } catch (e) { ... }]: the exception becomes a value. *)
Definition catch {A} (c : Async A) : Async (Outcome A) :=
  fun w => let (r, w') := c w in (Returns r, w').

End Async.

Notation "'let*' x ':=' c 'in' k" := (Async.bind c (fun x => k))
  (at level 10, x name, c at level 100, k at level 200).

Definition advance (ms : Z) (w : World) : World :=
  {| cache := cache w; now := now w + ms; network := network w;
     requests := requests w; trace := trace w |}.

(** [Date.now()] *)
Definition dateNow : Async Z := fun w => (Returns (now w), w).

(** [await sleep(ms)]: the timer is logged and the clock moves on. *)
Definition sleep (ms : Z) : Async unit :=
  fun w =>
    (Returns tt,
     {| cache := cache w; now := now w + ms; network := network w;
        requests := requests w; trace := trace w ++ [Sleep ms] |}).

Definition cacheGet (key : string) : Async (option CacheEntry) :=
  fun w => (Returns (cache w !! key), w).

Definition cacheSet (key : string) (entry : CacheEntry) : Async unit :=
  fun w =>
    (Returns tt,
     {| cache := <[key := entry]> (cache w); now := now w; network := network w;
        requests := requests w; trace := trace w |}).

(** The error an aborted [fetch] rejects with, a [DOMException], which is an
    [Error]. *)
Definition abortError : Thrown := ErrorObject "AbortError".

(** [await fetch(endpoint, { ..., body, signal })] under the twelve-second
    abort timer of [overpassFetch]: the request is sent and counted; an
    exchange that would take twelve seconds or more is aborted at twelve. *)
Definition fetch (endpoint body : string) : Async (N * Outcome JsVal) :=
  fun w =>
    let x := network w (requests w) in
    let sent ms :=
      {| cache := cache w; now := now w + ms; network := network w;
         requests := S (requests w); trace := trace w ++ [Request endpoint body] |} in
    if (12000 <=? took x)%N then (Throws abortError, sent 12000)
    else
      match reply x with
      | NetworkError e => (Throws e, sent (Z.of_N (took x)))
      | Response status json => (Returns (status, json), sent (Z.of_N (took x)))
      end.

(** [res.ok] *)
Definition ok (status : N) : bool := ((200 <=? status) && (status <=? 299))%N.

(** ** [overpassFetch] *)

Definition OVERPASS_ENDPOINTS : list string :=
  [ "https://overpass-api.de/api/interpreter";
    "https://overpass.kumi.systems/api/interpreter";
    "https://overpass.nchc.org.tw/api/interpreter" ].

Module Form.

Definition hexDigit (n : N) : ascii :=
  ascii_of_N (if (n <? 10)%N then 48 + n else 55 + n).

(** The [application/x-www-form-urlencoded] serialisation of one
    character. *)
Definition encodeChar (c : ascii) : string :=
  let n := N_of_ascii c in
  if ((n =? 42) || (n =? 45) || (n =? 46) || (n =? 95)
      || ((48 <=? n) && (n <=? 57)) || ((65 <=? n) && (n <=? 90))
      || ((97 <=? n) && (n <=? 122)))%N
  then String c EmptyString
  else if (n =? 32)%N then "+"
  else String "%" (String (hexDigit (n / 16)) (String (hexDigit (n mod 16)) EmptyString)).

Fixpoint encode (s : string) : string :=
  match s with
  | EmptyString => EmptyString
  | String c s' => encodeChar c +:+ encode s'
  end.

(** [new URLSearchParams({ data: query }).toString()] *)
Definition body (query : string) : string := "data=" +:+ encode query.

End Form.

(** Line 61: what the function throws once the loop is over. *)
Definition surfaced (lastErr : option Thrown) : Thrown :=
  match lastErr with
  | Some (ErrorObject m) => ErrorObject m
  | _ => ErrorObject "Overpass request failed"
  end.

(** The endpoint of iteration [attempt]. *)
Definition endpointOf (attempt : nat) : string :=
  nth (attempt mod length OVERPASS_ENDPOINTS)%nat OVERPASS_ENDPOINTS "".

(** The loop of [overpassFetch] from iteration [attempt] on, with [remaining]
    iterations left before [attempt] reaches 3. *)
Fixpoint overpassFetch_loop (remaining attempt : nat) (query : string)
    (lastErr : option Thrown) : Async JsVal :=
  match remaining with
  | O => Async.throw (surfaced lastErr)
  | S remaining' =>
      let endpoint := endpointOf attempt in
      let* r := Async.catch
        (let* res := fetch endpoint (Form.body query) in
         let (status, json) := res : N * Outcome JsVal in
         if negb (ok status)
         then Async.throw (ErrorObject ("Overpass error: " +:+ JsString.digits status))
         else Async.lift json) in
      match r with
      | Returns v => Async.ret v
      | Throws e =>
          let* _ := sleep (400 * (Z.of_nat attempt + 1)) in
          overpassFetch_loop remaining' (S attempt) query (Some e)
      end
  end.

Definition overpassFetch (query : string) : Async JsVal :=
  overpassFetch_loop 3 0 query None.

(** ** [fetchNearbyOsmPlaces] *)

Definition bindOutcome {A B} (o : Outcome A) (k : A -> Outcome B) : Outcome B :=
  match o with
  | Returns a => k a
  | Throws e => Throws e
  end.

Notation "'let?' x ':=' o 'in' k" := (bindOutcome o (fun x => k))
  (at level 10, x name, o at level 100, k at level 200).

Definition kindName (k : Kind) : string :=
  match k with
  | restaurant => "restaurant"
  | hospital => "hospital"
  | police => "police"
  | attraction => "attraction"
  | bus_station => "bus_station"
  end.

Definition kindToOverpass (k : Kind) : list string :=
  match k with
  | restaurant =>
      ["node[amenity=restaurant]"; "way[amenity=restaurant]"; "relation[amenity=restaurant]"]
  | hospital =>
      ["node[amenity=hospital]"; "way[amenity=hospital]"; "relation[amenity=hospital]"]
  | police =>
      ["node[amenity=police]"; "way[amenity=police]"; "relation[amenity=police]"]
  | bus_station =>
      ["node[amenity=bus_station]"; "way[amenity=bus_station]"; "relation[amenity=bus_station]";
       "node[highway=bus_stop]"; "way[highway=bus_stop]"; "relation[highway=bus_stop]"]
  | attraction =>
      ["node[tourism=attraction]"; "way[tourism=attraction]"; "relation[tourism=attraction]";
       "node[tourism=museum]"; "way[tourism=museum]"; "relation[tourism=museum]";
       "node[historic]"; "way[historic]"; "relation[historic]";
       "node[amenity=place_of_worship]"; "way[amenity=place_of_worship]";
       "relation[amenity=place_of_worship]"]
  end.

(** [arr.slice(0, end)]: the end goes through ToIntegerOrInfinity, a negative
    one counts from the back, and the result stops at the array's length. *)
Definition slice0 {A} (l : list A) (end_ : number) : list A :=
  let len := Z.of_nat (length l) in
  let final :=
    match end_ with
    | NaN => 0
    | Infinity true => 0
    | Infinity false => len
    | Fin q =>
        let k := JsNumber.truncate q in
        if k <? 0 then Z.max (len + k) 0 else Z.min k len
    end in
  firstn (Z.to_nat final) l.

(** [arr.filter(Boolean)] on an array of places and [null]s. *)
Fixpoint compact {A} (l : list (option A)) : list A :=
  match l with
  | [] => []
  | Some a :: rest => a :: compact rest
  | None :: rest => compact rest
  end.

(** [const radius], [const limit] and [const parts]. *)
Definition radius (options : Options.t) : number :=
  JsNumber.max (num 100) (JsNumber.min (Options.radiusMeters options) (num 50000)).

Definition limit (options : Options.t) : number :=
  JsNumber.max (num 1)
    (JsNumber.min (match Options.limit options with Some l => l | None => num 30 end) (num 50)).

Definition parts (options : Options.t) : list string :=
  flat_map kindToOverpass (Options.kinds options).

(** [const queryLower] *)
Definition queryLower (options : Options.t) : string :=
  JsString.toLowerCase
    (JsString.trim (match Options.query options with Some s => s | None => "" end)).

(** The predicate of [mapped.filter(...)]. *)
Definition matchesQuery (queryLower : string) (p : OsmPlace.t) : bool :=
  JsString.includes (JsString.toLowerCase (OsmPlace.name p)) queryLower
  || JsString.includes (JsString.toLowerCase (OsmPlace.address p)) queryLower.

(** [const filtered] *)
Definition filtered (queryLower : string) (mapped : list OsmPlace.t) : list OsmPlace.t :=
  if JsString.nonEmpty queryLower then List.filter (matchesQuery queryLower) mapped
  else mapped.

(** [const result] *)
Definition result (options : Options.t) (mapped : list OsmPlace.t) : list OsmPlace.t :=
  slice0 (filtered (queryLower options) mapped) (limit options).

Section Lookup.
Context `{Host}.

(** [const around] and [const q] *)
Definition around (origin : OsmLatLng.t) (options : Options.t) : string :=
  "(around:" +:+ number_to_string (radius options) +:+ ","
  +:+ number_to_string (OsmLatLng.lat origin) +:+ ","
  +:+ number_to_string (OsmLatLng.lng origin) +:+ ")".

Definition q (origin : OsmLatLng.t) (options : Options.t) : string :=
  let nl := JsString.newline in
  "[" +:+ nl +:+ "    out:json" +:+ nl +:+ "  ][timeout:25];(" +:+ nl +:+ "    "
  +:+ JsString.join (nl +:+ "    ")
        (map (fun p => p +:+ around origin options +:+ ";") (parts options))
  +:+ nl +:+ "  );out center " +:+ number_to_string (limit options) +:+ ";".

(** [const cacheKey] *)
Definition cacheKey (origin : OsmLatLng.t) (options : Options.t) : string :=
  toFixed 5 (OsmLatLng.lat origin) +:+ "," +:+ toFixed 5 (OsmLatLng.lng origin)
  +:+ "|" +:+ number_to_string (radius options)
  +:+ "|" +:+ JsString.join "," (map kindName (Options.kinds options))
  +:+ "|" +:+ queryLower options.

(** The coordinate pair the callback of [elements.map] reads off an
    element: [lat] and [lng] of lines 127-128. *)
Definition latOf (el : JsVal) : JsVal :=
  if Js.isNumber (Js.prop el "lat") then Js.prop el "lat"
  else Js.getOpt (Js.prop el "center") "lat".

Definition lngOf (el : JsVal) : JsVal :=
  if Js.isNumber (Js.prop el "lon") then Js.prop el "lon"
  else Js.getOpt (Js.prop el "center") "lon".

(** [rawName] of line 131, before [.trim()]. *)
Definition nameCandidate (tags : JsVal) : JsVal :=
  Js.or (Js.or (Js.or (Js.prop tags "name") (Js.prop tags "brand")) (Js.prop tags "operator"))
        (VStr "").

Definition addressParts (tags : JsVal) : list JsVal :=
  List.filter Js.truthy
    [ Js.prop tags "addr:housenumber";
      Js.prop tags "addr:street";
      Js.prop tags "addr:suburb";
      Js.or (Js.or (Js.prop tags "addr:city") (Js.prop tags "addr:town"))
            (Js.prop tags "addr:village");
      Js.prop tags "addr:state" ].

(** The callback of [elements.map]: a place, [None] for [null], or the
    exception a malformed element raises. *)
Definition mapElement (el : JsVal) : Outcome (option OsmPlace.t) :=
  let? t := Js.get el "tags" in
  let tags := Js.coalesce t (VObj []) in
  match latOf el, lngOf el with
  | VNum lat, VNum lng =>
      let? rawName := callTrim (nameCandidate tags) in
      if negb (JsString.nonEmpty rawName) then Returns None
      else
        let? address := joinValues ", " (addressParts tags) in
        let? type := toStr (Js.prop el "type") in
        let? id := toStr (Js.prop el "id") in
        Returns (Some (OsmPlace.make (type +:+ "/" +:+ id) rawName address lat lng tags))
  | _, _ => Returns None
  end.

(** [elements.map(callback)]: the first exception ends the loop. *)
Fixpoint mapElements (els : list JsVal) : Outcome (list (option OsmPlace.t)) :=
  match els with
  | [] => Returns []
  | el :: rest =>
      let? p := mapElement el in
      let? ps := mapElements rest in
      Returns (p :: ps)
  end.

(** [const elements] *)
Definition elements (data : JsVal) : Outcome (list JsVal) :=
  let? e := Js.get data "elements" in
  Returns (match e with VArr l => l | _ => [] end).

(** [const mapped] *)
Definition mapped (data : JsVal) : Outcome (list OsmPlace.t) :=
  let? els := elements data in
  let? ps := mapElements els in
  Returns (compact ps).

(** Lines 121-160: what a call does once the cache has not answered. *)
Definition fetchFresh (origin : OsmLatLng.t) (options : Options.t)
    : Async (list OsmPlace.t) :=
  let* data := overpassFetch (q origin options) in
  let* mapped := Async.lift (mapped data) in
  let result := result options mapped in
  let* t := dateNow in
  let* _ := cacheSet (cacheKey origin options) {| at_ := t; data := result |} in
  Async.ret result.

Definition fetchNearbyOsmPlaces (origin : OsmLatLng.t) (options : Options.t)
    : Async (list OsmPlace.t) :=
  if (length (parts options) =? 0)%nat then Async.ret []
  else
    let* cached := cacheGet (cacheKey origin options) in
    let* t := dateNow in
    match cached with
    | Some c =>
        if t - at_ c <? 60000 then Async.ret (data c)
        else fetchFresh origin options
    | None => fetchFresh origin options
    end.

End Lookup.

(** ** Vocabulary of the statements *)

(** How long [fetch] keeps the caller waiting for an exchange, the exception
    the [try] block ends with, and the parsed body it returns. *)
Definition elapsed (x : Exchange) : Z :=
  if (12000 <=? took x)%N then 12000 else Z.of_N (took x).

Definition failure (x : Exchange) : option Thrown :=
  if (12000 <=? took x)%N then Some abortError
  else
    match reply x with
    | NetworkError e => Some e
    | Response status json =>
        if negb (ok status)
        then Some (ErrorObject ("Overpass error: " +:+ JsString.digits status))
        else match json with Throws e => Some e | Returns _ => None end
    end.

Definition payload (x : Exchange) : option JsVal :=
  if (12000 <=? took x)%N then None
  else
    match reply x with
    | Response status (Returns v) => if ok status then Some v else None
    | _ => None
    end.

(** The world once iteration [attempt] has sent its request, and once it has
    slept after a failure. *)
Definition afterRequest (attempt : nat) (query : string) (w : World) : World :=
  {| cache := cache w;
     now := now w + elapsed (network w (requests w));
     network := network w;
     requests := S (requests w);
     trace := trace w ++ [Request (endpointOf attempt) (Form.body query)] |}.

Definition afterBackoff (attempt : nat) (w : World) : World :=
  {| cache := cache w;
     now := now w + 400 * (Z.of_nat attempt + 1);
     network := network w;
     requests := requests w;
     trace := trace w ++ [Sleep (400 * (Z.of_nat attempt + 1))] |}.

(** The world after [cache.set(key, { at: Date.now(), data: result })]. *)
Definition stored (key : string) (result : list OsmPlace.t) (w : World) : World :=
  {| cache := <[key := {| at_ := now w; data := result |}]> (cache w);
     now := now w; network := network w; requests := requests w; trace := trace w |}.

(** The entry line 117 accepts: present and younger than sixty seconds. *)
Definition freshEntry (key : string) (w : World) : option CacheEntry :=
  match cache w !! key with
  | Some c => if now w - at_ c <? 60000 then Some c else None
  | None => None
  end.

Definition withCache (m : gmap string CacheEntry) (w : World) : World :=
  {| cache := m; now := now w; network := network w;
     requests := requests w; trace := trace w |}.

(** [t] occurs in [s] when the case of letters is ignored. *)
Definition containsIgnoringCase (s t : string) : Prop :=
  exists pre mid post,
    s = pre +:+ mid +:+ post /\ JsString.toLowerCase mid = JsString.toLowerCase t.

(** The first non-empty value of a list of candidates, the empty string when
    there is none. *)
Definition firstNonEmpty (candidates : list JsVal) : JsVal :=
  match find Js.truthy candidates with
  | Some v => v
  | None => VStr ""
  end.

Definition nameTags (tags : JsVal) : list JsVal :=
  [Js.prop tags "name"; Js.prop tags "brand"; Js.prop tags "operator"].

(** [el.tags ?? {}] *)
Definition tagsOf (el : JsVal) : JsVal :=
  Js.coalesce (Js.prop el "tags") (VObj []).

Definition named (p : OsmPlace.t) : Prop := OsmPlace.name p <> "".

(** Every place the cache holds has a name. *)
Definition namedCache (m : gmap string CacheEntry) : Prop :=
  forall k c, m !! k = Some c -> Forall named (data c).

(** The two sources of a coordinate, each taken as a pair. *)
Definition directPair (el : JsVal) : option (number * number) :=
  match Js.prop el "lat", Js.prop el "lon" with
  | VNum a, VNum b => Some (a, b)
  | _, _ => None
  end.

Definition centerPair (el : JsVal) : option (number * number) :=
  match Js.getOpt (Js.prop el "center") "lat", Js.getOpt (Js.prop el "center") "lon" with
  | VNum a, VNum b => Some (a, b)
  | _, _ => None
  end.

(** A pair of finite numbers. *)
Definition finitePair (o : option (number * number)) : bool :=
  match o with
  | Some (Fin _, Fin _) => true
  | _ => false
  end.

(** The response [{ elements: els }]. *)
Definition response (els : list JsVal) : JsVal := VObj [("elements", VArr els)].

Definition compactOutcome {A} (o : Outcome (list (option A))) : Outcome (list A) :=
  match o with
  | Returns ps => Returns (compact ps)
  | Throws e => Throws e
  end.

(** Three requests with a 400 ms and an 800 ms pause between them, and
    nothing after the last. *)
Definition pausesBetweenOnly (query : string) : list Event :=
  [ Request (endpointOf 0) (Form.body query); Sleep 400;
    Request (endpointOf 1) (Form.body query); Sleep 800;
    Request (endpointOf 2) (Form.body query) ].

(** ** Sample data for the closed examples *)

Module Sample.

Definition cafe : JsVal :=
  VObj [ ("type", VStr "node"); ("id", VNum (num 7));
         ("lat", VNum (num 12)); ("lon", VNum (num 77));
         ("tags", VObj [ ("name", VStr "Grand Cafe");
                         ("addr:housenumber", VStr "12");
                         ("addr:street", VStr "Main St");
                         ("addr:city", VStr "Springfield") ]) ].

(** A way: no point of its own, only a centre. *)
Definition clinic : JsVal :=
  VObj [ ("type", VStr "way"); ("id", VNum (num 8));
         ("center", VObj [("lat", VNum (num 1)); ("lon", VNum (num 2))]);
         ("tags", VObj [("name", VStr "City Hospital")]) ].

(** A name with blanks around it, and a blank name beside a brand. *)
Definition padded : JsVal :=
  VObj [ ("type", VStr "node"); ("id", VNum (num 9));
         ("lat", VNum (num 1)); ("lon", VNum (num 2));
         ("tags", VObj [("name", VStr " Cafe ")]) ].

Definition blank : JsVal :=
  VObj [ ("type", VStr "node"); ("id", VNum (num 10));
         ("lat", VNum (num 1)); ("lon", VNum (num 2));
         ("tags", VObj [("name", VStr "  "); ("brand", VStr "Shell")]) ].

(** A latitude but no longitude on the element, beside a whole centre; and
    a latitude on the element with a longitude on its centre only. *)
Definition mixed : JsVal :=
  VObj [ ("type", VStr "way"); ("id", VNum (num 11));
         ("lat", VNum (num 5));
         ("center", VObj [("lat", VNum (num 1)); ("lon", VNum (num 2))]);
         ("tags", VObj [("name", VStr "Depot")]) ].

Definition halves : JsVal :=
  VObj [ ("type", VStr "way"); ("id", VNum (num 12));
         ("lat", VNum (num 5));
         ("center", VObj [("lon", VNum (num 2))]);
         ("tags", VObj [("name", VStr "Depot")]) ].

(** A latitude written [1e999] in the JSON text, which parses to
    [Infinity]. *)
Definition boundless : JsVal :=
  VObj [ ("type", VStr "node"); ("id", VNum (num 13));
         ("lat", VNum (Infinity false)); ("lon", VNum (num 2));
         ("tags", VObj [("name", VStr "Edge")]) ].

(** Three networks: one that answers with two places, one that answers
    [{}], one whose mirrors all reply 504. *)
Definition healthy : nat -> Exchange :=
  fun _ => {| took := 300; reply := Response 200 (Returns (response [cafe; clinic])) |}.

Definition hollow : nat -> Exchange :=
  fun _ => {| took := 300; reply := Response 200 (Returns (VObj [])) |}.

Definition down : nat -> Exchange :=
  fun _ => {| took := 300; reply := Response 504 (Returns VNull) |}.

(** A network that answers every request with status 200 and the JSON text
    [null]. *)
Definition void : nat -> Exchange :=
  fun _ => {| took := 300; reply := Response 200 (Returns VNull) |}.

(** A freshly loaded page: nothing cached, nothing sent. *)
Definition start (net : nat -> Exchange) : World :=
  {| cache := ∅; now := 1000000; network := net; requests := 0; trace := [] |}.

Definition origin : OsmLatLng.t := OsmLatLng.make (num 12) (num 77).

(** A point a millionth of a degree north of [origin]. *)
Definition nearby : OsmLatLng.t := OsmLatLng.make (dec 12000001 6) (num 77).

Definition ask (kinds : list Kind) (limit : option number) (query : option string)
    : Options.t :=
  Options.make (num 7000) kinds limit query.

(** A first call with limit 50 on the healthy network. *)
Definition firstRun : Outcome (list OsmPlace.t) * World :=
  @fetchNearbyOsmPlaces DecimalHost.host origin
    (ask [restaurant; hospital] (Some (num 50)) None) (start healthy).

Definition served : list OsmPlace.t :=
  match fst firstRun with Returns r => r | Throws _ => [] end.

Definition afterFirst : World := snd firstRun.

End Sample.

(** ** [getOsmDirectionsUrl] *)

Module Uri.

(** The characters [encodeURIComponent] leaves alone: letters, digits and
    [- _ . ! ~ * ' ( )]. *)
Definition unreserved (c : ascii) : bool :=
  let n := N_of_ascii c in
  (((48 <=? n) && (n <=? 57)) || ((65 <=? n) && (n <=? 90)) || ((97 <=? n) && (n <=? 122))
   || (n =? 45) || (n =? 95) || (n =? 46) || (n =? 33) || (n =? 126)
   || (n =? 42) || (n =? 39) || (n =? 40) || (n =? 41))%N.

Definition encodeChar (c : ascii) : string :=
  let n := N_of_ascii c in
  if unreserved c then String c EmptyString
  else String "%" (String (Form.hexDigit (n / 16))
                     (String (Form.hexDigit (n mod 16)) EmptyString)).

(** [encodeURIComponent] on a string of ASCII characters. *)
Fixpoint encodeURIComponent (s : string) : string :=
  match s with
  | EmptyString => EmptyString
  | String c s' => encodeChar c +:+ encodeURIComponent s'
  end.

(** A character that may stand in the value of a query parameter as
    [encodeURIComponent] writes it. *)
Definition safe (c : ascii) : Prop := unreserved c = true \/ c = "%"%char.

End Uri.

Section Directions.
Context `{Host}.

(** [`${p.lat},${p.lng}`] *)
Definition latLng (p : OsmLatLng.t) : string :=
  number_to_string (OsmLatLng.lat p) +:+ "," +:+ number_to_string (OsmLatLng.lng p).

Definition getOsmDirectionsUrl (origin destination : OsmLatLng.t) : string :=
  let o := latLng origin in
  let d := latLng destination in
  "https://www.openstreetmap.org/directions?engine=fossgis_osrm_car&route="
  +:+ Uri.encodeURIComponent o +:+ "%3B" +:+ Uri.encodeURIComponent d.

End Directions.

(** ** The pages that call [fetchNearbyOsmPlaces] *)

(** [e instanceof Error ? e.message : fallback] *)
Definition messageOf (e : Thrown) (fallback : string) : string :=
  match e with
  | ErrorObject m => m
  | NotAnError _ => fallback
  end.

Module RestaurantsPage.

(** The state and the two refs of the component that [fetchPlaces] reads and
    writes. *)
Record State : Type := {
  places : list OsmPlace.t;
  loadingPlaces : bool;
  placesError : option string;
  inFlightRef : bool;
  lastRequestKeyRef : option string
}.

Section Page.
Context `{Host}.

(** [const requestKey] *)
Definition requestKey (location : OsmLatLng.t) (searchQuery : string) : string :=
  toFixed 5 (OsmLatLng.lat location) +:+ "," +:+ toFixed 5 (OsmLatLng.lng location)
  +:+ "|" +:+ JsString.toLowerCase (JsString.trim searchQuery).

(** [fetchPlaces], run to its end with the [location] and the [searchQuery]
    of the render it was created in. *)
Definition fetchPlaces (location : option OsmLatLng.t) (searchQuery : string)
    (s : State) (w : World) : State * World :=
  match location with
  | None => (s, w)
  | Some location =>
      let requestKey := requestKey location searchQuery in
      if inFlightRef s then (s, w)
      else if bool_decide (lastRequestKeyRef s = Some requestKey) then (s, w)
      else
        let run :=
          fetchNearbyOsmPlaces location
            (Options.make (num 7000) [restaurant] (Some (num 10)) (Some searchQuery)) w in
        match fst run with
        | Returns results =>
            ({| places := results; loadingPlaces := false; placesError := None;
                inFlightRef := false; lastRequestKeyRef := Some requestKey |}, snd run)
        | Throws e =>
            ({| places := places s; loadingPlaces := false;
                placesError := Some (messageOf e "Failed to fetch nearby restaurants");
                inFlightRef := false; lastRequestKeyRef := Some requestKey |}, snd run)
        end
  end.

End Page.

End RestaurantsPage.

Module BusPage.

(** [p.tags?.amenity === 'bus_station'] *)
Definition isBusStation (p : OsmPlace.t) : bool :=
  match Js.getOpt (OsmPlace.tags p) "amenity" with
  | VStr s => String.eqb s "bus_station"
  | _ => false
  end.

(** [const bestStand] *)
Definition bestStand (fromBusStands : list OsmPlace.t) : option OsmPlace.t :=
  match fromBusStands with
  | [] => None
  | first :: _ =>
      Some (match find isBusStation fromBusStands with
            | Some byAmenity => byAmenity
            | None => first
            end)
  end.

End BusPage.

(** ** More vocabulary *)

(** What [k] failed attempts, numbered from [from], leave in the trace. *)
Definition failedAttempts (query : string) (from k : nat) : list Event :=
  flat_map (fun i => [Request (endpointOf i) (Form.body query);
                      Sleep (400 * (Z.of_nat i + 1))])
           (seq from k).

(** A tag value as the declared type [Record<string, string>] allows it:
    absent, or a string. *)
Definition textual (v : JsVal) : Prop := v = VUndef \/ exists s, v = VStr s.

(** The string a tag value stands for: itself, or nothing when absent. *)
Definition text (v : JsVal) : string :=
  match v with VStr s => s | _ => "" end.

Definition tagText (tags : JsVal) (k : string) : string :=
  match Js.prop tags k with
  | VStr s => s
  | _ => ""
  end.

Definition addressKeys : list string :=
  ["addr:housenumber"; "addr:street"; "addr:suburb";
   "addr:city"; "addr:town"; "addr:village"; "addr:state"].

(** The city, else the town, else the village. *)
Definition locality (tags : JsVal) : string :=
  if JsString.nonEmpty (tagText tags "addr:city") then tagText tags "addr:city"
  else if JsString.nonEmpty (tagText tags "addr:town") then tagText tags "addr:town"
  else tagText tags "addr:village".

(** The address components that are present, in the order of the address. *)
Definition addressLine (tags : JsVal) : list string :=
  List.filter JsString.nonEmpty
    [ tagText tags "addr:housenumber"; tagText tags "addr:street";
      tagText tags "addr:suburb"; locality tags; tagText tags "addr:state" ].

(** A value that is no array and no object. *)
Definition primitive (v : JsVal) : Prop :=
  match v with
  | VArr _ | VObj _ => False
  | _ => True
  end.

(** An element as Overpass sends it: an object whose name and address tags
    are strings where present, and whose [type] and [id] are primitives. *)
Definition wellShaped (el : JsVal) : Prop :=
  Js.isNullish el = false /\
  Forall textual (nameTags (tagsOf el)) /\
  Forall textual (map (Js.prop (tagsOf el)) addressKeys) /\
  primitive (Js.prop el "type") /\
  primitive (Js.prop el "id").

(** The name an element would get: its first non-empty candidate,
    trimmed. *)
Definition trimmedName (el : JsVal) : string :=
  JsString.trim (match firstNonEmpty (nameTags (tagsOf el)) with VStr s => s | _ => "" end).

(** ** More sample data *)

Module Sample2.

(** A bus stop, then a bus station. *)
Definition stop : OsmPlace.t :=
  OsmPlace.make "node/21" "Market Stop" "" (num 12) (num 77)
    (VObj [("highway", VStr "bus_stop"); ("name", VStr "Market Stop")]).

Definition station : OsmPlace.t :=
  OsmPlace.make "way/22" "Central Bus Station" "" (num 12) (num 77)
    (VObj [("amenity", VStr "bus_station"); ("name", VStr "Central Bus Station")]).

(** A network whose first two replies fail and whose third is the answer
    [{ elements: [] }]. *)
Definition flaky : nat -> Exchange :=
  fun n =>
    match n with
    | 0%nat => {| took := 300; reply := Response 429 (Returns VNull) |}
    | 1%nat => {| took := 20000; reply := Response 200 (Returns VNull) |}
    | _ => {| took := 300; reply := Response 200 (Returns (response [])) |}
    end.

(** A village house: number, street, town and village, no city. *)
Definition cottage : JsVal :=
  VObj [ ("type", VStr "node"); ("id", VNum (num 31));
         ("lat", VNum (num 12)); ("lon", VNum (num 77));
         ("tags", VObj [ ("name", VStr "Cottage");
                         ("addr:housenumber", VStr "4");
                         ("addr:town", VStr "Hilltown");
                         ("addr:village", VStr "Lower End");
                         ("addr:state", VStr "KA") ]) ].

Definition idle : RestaurantsPage.State :=
  {| RestaurantsPage.places := [];
     RestaurantsPage.loadingPlaces := false;
     RestaurantsPage.placesError := None;
     RestaurantsPage.inFlightRef := false;
     RestaurantsPage.lastRequestKeyRef := None |}.

End Sample2.

(** * Facts *)

(** ** Strings *)

Module StringFacts.
Import JsString.

Lemma append_assoc (a b c : string) : (a +:+ b) +:+ c = a +:+ (b +:+ c).
Proof. induction a as [|x a IH]; simpl; [reflexivity|]. rewrite IH. reflexivity. Qed.

Lemma append_inv_head (a b c : string) : a +:+ b = a +:+ c -> b = c.
Proof. induction a as [|x a IH]; simpl; intros Heq; [exact Heq|]. inversion Heq. auto. Qed.

Lemma prefix_spec (t s : string) :
  String.prefix t s = true <-> exists post, s = t +:+ post.
Proof.
  revert s. induction t as [|c t IH]; intros s; simpl.
  - destruct s; split; eauto.
  - destruct s as [|c' s]; simpl.
    + split; [discriminate|]. intros [post Hpost]. discriminate.
    + destruct (ascii_dec c c') as [->|Hne].
      * rewrite IH. split; intros [post Hpost]; exists post; [rewrite Hpost; reflexivity|].
        inversion Hpost. reflexivity.
      * split; [discriminate|]. intros [post Hpost]. inversion Hpost. congruence.
Qed.

Lemma includes_spec (s t : string) :
  includes s t = true <-> exists pre post, s = pre +:+ t +:+ post.
Proof.
  induction s as [|c s IH].
  - cbn [includes]. rewrite orb_false_r, prefix_spec. split.
    + intros [post Hpost]. exists "", post. exact Hpost.
    + intros (pre & post & Heq). destruct pre; [|discriminate]. eauto.
  - cbn [includes]. rewrite orb_true_iff, prefix_spec, IH. split.
    + intros [[post Hpost]|(pre & post & Heq)].
      * exists "", post. exact Hpost.
      * exists (String c pre), post. rewrite Heq. reflexivity.
    + intros (pre & post & Heq). destruct pre as [|c' pre].
      * left. exists post. exact Heq.
      * right. simpl in Heq. inversion Heq. eauto.
Qed.

Lemma toLowerCase_append (a b : string) :
  toLowerCase (a +:+ b) = toLowerCase a +:+ toLowerCase b.
Proof. induction a as [|c a IH]; simpl; [reflexivity|]. rewrite IH. reflexivity. Qed.

Lemma toLowerCase_split (s a b : string) :
  toLowerCase s = a +:+ b ->
  exists x y, s = x +:+ y /\ toLowerCase x = a /\ toLowerCase y = b.
Proof.
  revert s. induction a as [|c a IH]; intros s Heq.
  - exists "", s. auto.
  - destruct s as [|c' s]; [discriminate|]. simpl in Heq. inversion Heq as [[Hc Hs]].
    destruct (IH s Hs) as (x & y & -> & Hx & Hy).
    exists (String c' x), y. simpl. rewrite Hx. auto.
Qed.

Lemma lowerChar_idempotent c : lowerChar (lowerChar c) = lowerChar c.
Proof.
  destruct c as [[] [] [] [] [] [] [] []]; reflexivity.
Qed.

Lemma toLowerCase_idempotent s : toLowerCase (toLowerCase s) = toLowerCase s.
Proof.
  induction s as [|c s IH]; simpl; [reflexivity|].
  rewrite lowerChar_idempotent, IH. reflexivity.
Qed.

(** The lookup of a lower-cased needle in a lower-cased haystack is a
    case-insensitive search. *)
Lemma includes_ignoring_case (s t : string) :
  includes (toLowerCase s) (toLowerCase t) = true <-> containsIgnoringCase s t.
Proof.
  rewrite includes_spec. unfold containsIgnoringCase. split.
  - intros (pre & post & Heq).
    destruct (toLowerCase_split _ _ _ Heq) as (x & y & -> & _ & Hy).
    destruct (toLowerCase_split _ _ _ Hy) as (mid & z & -> & Hmid & _).
    exists x, mid, z. auto.
  - intros (pre & mid & post & -> & Hmid).
    exists (toLowerCase pre), (toLowerCase post).
    rewrite !toLowerCase_append, Hmid. reflexivity.
Qed.

Lemma nonEmpty_true s : nonEmpty s = true <-> s <> "".
Proof. destruct s; simpl; split; congruence. Qed.

End StringFacts.

(** The categories can be read back from a cache key. *)
Module KeyFacts.
Import JsString StringFacts.

Lemma kindName_prefix k1 k2 t1 t2 :
  kindName k1 +:+ t1 = kindName k2 +:+ t2 -> k1 = k2 /\ t1 = t2.
Proof.
  destruct k1, k2; simpl; intros Heq; try discriminate;
    (split; [reflexivity|]); inversion Heq; reflexivity.
Qed.

Lemma join_cons2 sep (x y : string) rest :
  join sep (x :: y :: rest) = x +:+ sep +:+ join sep (y :: rest).
Proof. reflexivity. Qed.

Lemma kinds_then_bar ks1 : forall ks2 r1 r2,
  join "," (map kindName ks1) +:+ "|" +:+ r1 = join "," (map kindName ks2) +:+ "|" +:+ r2 ->
  ks1 = ks2 /\ r1 = r2.
Proof.
  induction ks1 as [|k1 ks1 IH]; intros ks2 r1 r2 Heq.
  - destruct ks2 as [|k2 [|k2' ks2]].
    + inversion Heq. auto.
    + destruct k2; discriminate.
    + destruct k2; discriminate.
  - destruct ks2 as [|k2 ks2].
    { destruct ks1; destruct k1; discriminate. }
    destruct ks1 as [|k1' ks1], ks2 as [|k2' ks2].
    + cbn [map join] in Heq. apply kindName_prefix in Heq as [-> Hr].
      inversion Hr. auto.
    + cbn [map] in Heq. rewrite join_cons2 in Heq. cbn [join] in Heq.
      rewrite append_assoc in Heq. apply kindName_prefix in Heq as [_ Hr]. discriminate.
    + cbn [map] in Heq. rewrite join_cons2 in Heq. cbn [join] in Heq.
      rewrite append_assoc in Heq. apply kindName_prefix in Heq as [_ Hr]. discriminate.
    + cbn [map] in Heq. rewrite !join_cons2 in Heq.
      rewrite !append_assoc in Heq. apply kindName_prefix in Heq as [-> Hr].
      change ("," +:+ ?x) with (String "," x) in Hr. inversion Hr as [Hr'].
      destruct (IH (k2' :: ks2) r1 r2 Hr') as [-> ->]. auto.
Qed.

End KeyFacts.

(** ** Numbers *)

Module NumberFacts.
Import JsNumber.

Lemma num_le a b : (a <= b)%Z -> (Q2Qc (inject_Z a) <= Q2Qc (inject_Z b))%Qc.
Proof.
  intros Hab. unfold Qcle. cbn [this Q2Qc]. rewrite !Qred_correct.
  rewrite <- Zle_Qle. exact Hab.
Qed.

(** [Math.max(lo, Math.min(x, hi))] lands in [lo, hi] for every number
    but [NaN]. *)
Lemma clamp_between lo hi x :
  (lo <= hi)%Z -> x <> NaN ->
  between lo (max (num lo) (min x (num hi))) hi.
Proof.
  intros Hle Hx. pose proof (num_le _ _ Hle) as Hq.
  destruct x as [|[|]|q]; [congruence| | |].
  - cbn. split; auto using Qcle_refl.
  - cbn. case_bool_decide; cbn; split; auto using Qcle_refl.
  - unfold min, max, num. cbn [isNaN orb lt].
    case_bool_decide as H1; cbn [isNaN orb lt].
    + case_bool_decide as H2; cbn; split; auto using Qcle_refl.
    + case_bool_decide as H2; cbn; split;
        auto using Qcle_refl, Qclt_le_weak, Qcnot_lt_le.
Qed.

(** The clamp lets [NaN] through. *)
Lemma clamp_NaN lo hi : max (num lo) (min NaN (num hi)) = NaN.
Proof. reflexivity. Qed.

Lemma truncate_le q : (Q2Qc 0 <= q)%Qc ->
  0 <= truncate q /\ (Q2Qc (inject_Z (truncate q)) <= q)%Qc.
Proof.
  unfold Qcle, truncate. cbn [this Q2Qc]. rewrite !Qred_correct.
  destruct q as [[n d] Hc]; cbn [this Qnum Qden]. unfold Qle; cbn. intros Hn.
  assert (0 <= n) by lia. split.
  - apply Z.quot_pos; lia.
  - pose proof (Z.mul_quot_le n (Z.pos d)). lia.
Qed.

(** [nearest] is off by half a unit of the last digit at most. *)
Lemma nearest_close f (a : Qc) :
  (a * inject_Z (10 ^ Z.of_nat f) - (1 # 2) < inject_Z (nearest f a)
   /\ inject_Z (nearest f a) <= a * inject_Z (10 ^ Z.of_nat f) + (1 # 2))%Q.
Proof.
  unfold nearest. set (z := (a * inject_Z (10 ^ Z.of_nat f))%Q).
  pose proof (Qfloor_le (z + (1 # 2))) as Hle.
  pose proof (Qlt_floor (z + (1 # 2))) as Hlt.
  rewrite inject_Z_plus in Hlt. change (inject_Z 1) with 1%Q in Hlt.
  set (n := inject_Z (Qfloor (z + (1 # 2)))) in *. clearbody n z.
  split; [lra|exact Hle].
Qed.

Lemma slice0_length {A} (l : list A) q :
  0 <= truncate q -> Z.of_nat (length (slice0 l (Fin q))) <= truncate q.
Proof.
  intros Hk. unfold slice0. destruct (Z.ltb_spec (truncate q) 0); [lia|].
  rewrite length_firstn. lia.
Qed.

End NumberFacts.

(** ** The retry loop *)

Lemma payload_failure x :
  (exists v, payload x = Some v /\ failure x = None) \/
  (exists e, failure x = Some e /\ payload x = None).
Proof.
  unfold payload, failure. destruct (12000 <=? took x)%N; [right; eauto|].
  destruct (reply x) as [e|status [v|e]]; [right; eauto| |].
  - destruct (ok status); simpl; [left|right]; eauto.
  - destruct (ok status); simpl; right; eauto.
Qed.

Lemma loop_answered remaining attempt query lastErr w v :
  payload (network w (requests w)) = Some v ->
  overpassFetch_loop (S remaining) attempt query lastErr w
  = (Returns v, afterRequest attempt query w).
Proof.
  intros Hp. unfold payload in Hp.
  cbn [overpassFetch_loop]. unfold Async.bind, Async.catch, fetch, afterRequest, elapsed, endpointOf.
  destruct (12000 <=? took (network w (requests w)))%N; [discriminate|].
  destruct (reply (network w (requests w))) as [e|status [d|e]]; try discriminate.
  destruct (ok status); [|discriminate]. inversion Hp; subst. reflexivity.
Qed.

Lemma loop_failed remaining attempt query lastErr w e :
  failure (network w (requests w)) = Some e ->
  overpassFetch_loop (S remaining) attempt query lastErr w
  = overpassFetch_loop remaining (S attempt) query (Some e)
      (afterBackoff attempt (afterRequest attempt query w)).
Proof.
  intros Hf. unfold failure in Hf.
  cbn [overpassFetch_loop]. unfold Async.bind, Async.catch, fetch, afterBackoff, afterRequest, elapsed, endpointOf, sleep.
  destruct (12000 <=? took (network w (requests w)))%N.
  { inversion Hf; subst. reflexivity. }
  destruct (reply (network w (requests w))) as [e'|status [d|e']].
  - inversion Hf; subst. reflexivity.
  - destruct (ok status); [discriminate|]. inversion Hf; subst. reflexivity.
  - destruct (ok status); inversion Hf; subst; reflexivity.
Qed.

Lemma afterRequest_frame attempt query w :
  cache (afterRequest attempt query w) = cache w /\
  network (afterRequest attempt query w) = network w /\
  requests (afterRequest attempt query w) = S (requests w) /\
  now w <= now (afterRequest attempt query w).
Proof.
  unfold afterRequest, elapsed; simpl. repeat split.
  destruct (12000 <=? took (network w (requests w)))%N; lia.
Qed.

Lemma afterBackoff_frame attempt w :
  cache (afterBackoff attempt w) = cache w /\
  network (afterBackoff attempt w) = network w /\
  requests (afterBackoff attempt w) = requests w /\
  now w <= now (afterBackoff attempt w).
Proof. unfold afterBackoff; simpl. repeat split. lia. Qed.

Lemma loop_frame remaining : forall attempt query lastErr w,
  let w' := snd (overpassFetch_loop remaining attempt query lastErr w) in
  cache w' = cache w /\ network w' = network w /\
  (requests w <= requests w' <= requests w + remaining)%nat /\
  now w <= now w'.
Proof.
  induction remaining as [|remaining IH]; intros attempt query lastErr w.
  - simpl. repeat split; lia.
  - destruct (payload_failure (network w (requests w))) as [(v & Hv & _)|(e & He & _)].
    + rewrite (loop_answered _ _ _ _ _ _ Hv). cbn [snd].
      destruct (afterRequest_frame attempt query w) as (-> & -> & -> & ?).
      repeat split; lia.
    + rewrite (loop_failed _ _ _ _ _ _ He).
      specialize (IH (S attempt) query (Some e) (afterBackoff attempt (afterRequest attempt query w))).
      cbv zeta in IH |- *.
      destruct IH as (Hc & Hn & Hr & Ht).
      destruct (afterBackoff_frame attempt (afterRequest attempt query w)) as (Hc1 & Hn1 & Hr1 & Ht1).
      destruct (afterRequest_frame attempt query w) as (Hc2 & Hn2 & Hr2 & Ht2).
      rewrite Hc, Hc1, Hc2, Hn, Hn1, Hn2. rewrite Hr1, Hr2 in Hr.
      repeat split; lia.
Qed.

Lemma overpassFetch_frame query w :
  let w' := snd (overpassFetch query w) in
  cache w' = cache w /\ network w' = network w /\
  (requests w < requests w' <= requests w + 3)%nat /\
  now w <= now w'.
Proof.
  unfold overpassFetch. cbv zeta.
  destruct (payload_failure (network w (requests w))) as [(v & Hv & _)|(e & He & _)].
  - rewrite (loop_answered _ _ _ _ _ _ Hv). cbn [snd].
    destruct (afterRequest_frame 0 query w) as (-> & -> & -> & ?). repeat split; lia.
  - rewrite (loop_failed _ _ _ _ _ _ He).
    pose proof (loop_frame 2 1 query (Some e) (afterBackoff 0 (afterRequest 0 query w))) as IH.
    cbv zeta in IH. destruct IH as (Hc & Hn & Hr & Ht).
    destruct (afterBackoff_frame 0%nat (afterRequest 0 query w)) as (Hc1 & Hn1 & Hr1 & Ht1).
    destruct (afterRequest_frame 0 query w) as (Hc2 & Hn2 & Hr2 & Ht2).
    rewrite Hc, Hc1, Hc2, Hn, Hn1, Hn2. rewrite Hr1, Hr2 in Hr.
    repeat split; lia.
Qed.

Lemma loop_withCache m remaining : forall attempt query lastErr w,
  overpassFetch_loop remaining attempt query lastErr (withCache m w)
  = (fst (overpassFetch_loop remaining attempt query lastErr w),
     withCache m (snd (overpassFetch_loop remaining attempt query lastErr w))).
Proof.
  induction remaining as [|remaining IH]; intros attempt query lastErr w; [reflexivity|].
  destruct (payload_failure (network w (requests w))) as [(v & Hv & _)|(e & He & _)].
  - rewrite (loop_answered _ _ _ _ w _ Hv).
    rewrite (loop_answered _ _ _ _ (withCache m w) v) by exact Hv. reflexivity.
  - rewrite (loop_failed _ _ _ _ w _ He).
    rewrite (loop_failed _ _ _ _ (withCache m w) e) by exact He.
    rewrite <- IH. reflexivity.
Qed.

(** C5, as the code has it: when the three attempts of a call all fail,
    [overpassFetch] sends exactly three requests, the one of attempt [i] to
    endpoint [i mod 3] of the mirror list, and sleeps after each failure,
    400 ms, 800 ms and 1200 ms, the last pause coming after the final attempt
    and before the error is thrown.  The error is the last one caught, or the
    generic one when that value is no [Error]. *)
Theorem C5_exhaustion_three_requests_three_pauses query w e0 e1 e2 :
  failure (network w (requests w)) = Some e0 ->
  failure (network w (1 + requests w)) = Some e1 ->
  failure (network w (2 + requests w)) = Some e2 ->
  fst (overpassFetch query w) = Throws (surfaced (Some e2)) /\
  requests (snd (overpassFetch query w)) = (3 + requests w)%nat /\
  trace (snd (overpassFetch query w)) =
    trace w ++ [ Request (endpointOf 0) (Form.body query); Sleep 400;
                 Request (endpointOf 1) (Form.body query); Sleep 800;
                 Request (endpointOf 2) (Form.body query); Sleep 1200 ] /\
  map endpointOf [0; 1; 2]%nat = OVERPASS_ENDPOINTS /\
  now (snd (overpassFetch query w)) =
    now w + elapsed (network w (requests w)) + 400
          + elapsed (network w (1 + requests w)) + 800
          + elapsed (network w (2 + requests w)) + 1200.
Proof.
  intros H0 H1 H2. unfold overpassFetch.
  rewrite (loop_failed _ _ _ _ _ _ H0).
  rewrite (loop_failed _ _ _ _ _ e1) by exact H1.
  rewrite (loop_failed _ _ _ _ _ e2) by exact H2.
  cbn -[endpointOf Form.body elapsed Z.add]. rewrite <- !app_assoc.
  repeat split.
Qed.

(** ** The cache in front of the fetch *)

Section LookupFacts.
Context `{Host}.

Lemma fetchFresh_run origin options w :
  fetchFresh origin options w =
  match overpassFetch (q origin options) w with
  | (Returns d, w1) =>
      match mapped d with
      | Returns m => (Returns (result options m),
                      stored (cacheKey origin options) (result options m) w1)
      | Throws e => (Throws e, w1)
      end
  | (Throws e, w1) => (Throws e, w1)
  end.
Proof.
  unfold fetchFresh, Async.bind, Async.lift.
  destruct (overpassFetch (q origin options) w) as [[d|e] w1]; [|reflexivity].
  destruct (mapped d) as [m|e]; reflexivity.
Qed.

Lemma lookup_no_kinds origin options w :
  parts options = [] -> fetchNearbyOsmPlaces origin options w = (Returns [], w).
Proof. intros Hp. unfold fetchNearbyOsmPlaces. rewrite Hp. reflexivity. Qed.

Lemma lookup_hit origin options w c :
  parts options <> [] ->
  freshEntry (cacheKey origin options) w = Some c ->
  fetchNearbyOsmPlaces origin options w = (Returns (data c), w).
Proof.
  intros Hp Hf. unfold fetchNearbyOsmPlaces, freshEntry in *.
  destruct (parts options) as [|p ps]; [congruence|]. cbn [length Nat.eqb].
  unfold Async.bind, cacheGet, dateNow.
  destruct (cache w !! cacheKey origin options) as [c'|]; [|discriminate].
  destruct (now w - at_ c' <? 60000); inversion Hf; subst. reflexivity.
Qed.

Lemma lookup_miss origin options w :
  parts options <> [] ->
  freshEntry (cacheKey origin options) w = None ->
  fetchNearbyOsmPlaces origin options w = fetchFresh origin options w.
Proof.
  intros Hp Hf. unfold fetchNearbyOsmPlaces, freshEntry in *.
  destruct (parts options) as [|p ps]; [congruence|]. cbn [length Nat.eqb].
  unfold Async.bind, cacheGet, dateNow.
  destruct (cache w !! cacheKey origin options) as [c'|]; [|reflexivity].
  destruct (now w - at_ c' <? 60000); [discriminate|reflexivity].
Qed.

Lemma parts_nil options : parts options = [] <-> Options.kinds options = [].
Proof.
  unfold parts. split; intros Hk; [|rewrite Hk; reflexivity].
  destruct (Options.kinds options) as [|k ks]; [reflexivity|].
  destruct k; discriminate.
Qed.

Lemma fetchFresh_frame origin options w :
  let w' := snd (fetchFresh origin options w) in
  network w' = network w /\
  (requests w < requests w' <= requests w + 3)%nat /\
  now w <= now w' /\
  match fst (fetchFresh origin options w) with
  | Returns r =>
      cache w' = <[cacheKey origin options := {| at_ := now w'; data := r |}]> (cache w)
  | Throws _ => cache w' = cache w
  end.
Proof.
  rewrite fetchFresh_run.
  pose proof (overpassFetch_frame (q origin options) w) as Hf. cbv zeta in Hf.
  destruct (overpassFetch (q origin options) w) as [[d|e] w1]; cbn [snd] in Hf.
  - destruct (mapped d) as [m|e]; cbn; destruct Hf as (-> & -> & ? & ?); auto.
  - cbn. destruct Hf as (-> & -> & ? & ?); auto.
Qed.

(** The clock never runs backwards during a call. *)
Lemma clock_monotone origin options w :
  now w <= now (snd (fetchNearbyOsmPlaces origin options w)).
Proof.
  destruct (parts options) as [|p ps] eqn:Hp.
  { rewrite lookup_no_kinds by exact Hp. cbn. lia. }
  assert (Hne : parts options <> []) by (rewrite Hp; discriminate).
  destruct (freshEntry (cacheKey origin options) w) as [c|] eqn:Hf.
  - rewrite (lookup_hit _ _ _ _ Hne Hf). cbn. lia.
  - rewrite (lookup_miss _ _ _ Hne Hf). apply fetchFresh_frame.
Qed.

(** A call that went to the network and returned has left its result in
    the cache, stamped with the time it finished. *)
Lemma stored_after_fetch origin options w r w1 :
  fetchNearbyOsmPlaces origin options w = (Returns r, w1) ->
  requests w1 <> requests w ->
  parts options <> [] /\
  cache w1 !! cacheKey origin options = Some {| at_ := now w1; data := r |}.
Proof.
  intros Hrun Hreq.
  destruct (parts options) as [|p ps] eqn:Hp.
  { rewrite lookup_no_kinds in Hrun by exact Hp. inversion Hrun; subst. congruence. }
  assert (Hne : parts options <> []) by (rewrite Hp; discriminate).
  rewrite <- Hp. split; [exact Hne|].
  destruct (freshEntry (cacheKey origin options) w) as [c|] eqn:Hf.
  { rewrite (lookup_hit _ _ _ _ Hne Hf) in Hrun. inversion Hrun; subst. congruence. }
  rewrite (lookup_miss _ _ _ Hne Hf) in Hrun.
  pose proof (fetchFresh_frame origin options w) as Hfr. cbv zeta in Hfr.
  rewrite Hrun in Hfr. cbn in Hfr. destruct Hfr as (_ & _ & _ & ->).
  apply lookup_insert_eq.
Qed.


Lemma cache_hit origin options w c :
  Options.kinds options <> [] ->
  cache w !! cacheKey origin options = Some c ->
  now w - at_ c < 60000 ->
  fetchNearbyOsmPlaces origin options w = (Returns (data c), w).
Proof.
  intros Hk Hc Ht. apply lookup_hit.
  - rewrite parts_nil. exact Hk.
  - unfold freshEntry. rewrite Hc.
    destruct (Z.ltb_spec (now w - at_ c) 60000); [reflexivity|lia].
Qed.

Lemma limit_clamped options :
  Options.limit options <> Some NaN -> JsNumber.between 1 (limit options) 50.
Proof.
  intros Hl. unfold limit. apply NumberFacts.clamp_between; [lia|].
  destruct (Options.limit options) as [l|]; [congruence|discriminate].
Qed.

Lemma radius_clamped options :
  Options.radiusMeters options <> NaN -> JsNumber.between 100 (radius options) 50000.
Proof. intros Hr. unfold radius. apply NumberFacts.clamp_between; [lia|exact Hr]. Qed.

(** A freshly computed result has at most [limit] entries. *)
Lemma fresh_within_limit options m q :
  limit options = Fin q ->
  Options.limit options <> Some NaN ->
  (Q2Qc (inject_Z (Z.of_nat (length (result options m)))) <= q)%Qc.
Proof.
  intros Hq Hl. pose proof (limit_clamped options Hl) as Hb. rewrite Hq in Hb.
  destruct Hb as [Hlo _].
  assert (H0 : (Q2Qc 0 <= q)%Qc).
  { eapply Qcle_trans; [|exact Hlo]. apply (NumberFacts.num_le 0 1). lia. }
  destruct (NumberFacts.truncate_le q H0) as [Hk Hkq].
  eapply Qcle_trans; [|exact Hkq]. apply NumberFacts.num_le.
  unfold result. rewrite Hq. apply NumberFacts.slice0_length. exact Hk.
Qed.

End LookupFacts.

(** ** Elements *)

Section ElementFacts.
Context `{Host}.

Lemma nameCandidate_firstNonEmpty tags :
  nameCandidate tags = firstNonEmpty (nameTags tags).
Proof.
  unfold nameCandidate, firstNonEmpty, nameTags, Js.or. cbn [find].
  destruct (Js.truthy (Js.prop tags "name")) eqn:H1;
    destruct (Js.truthy (Js.prop tags "brand")) eqn:H2;
    destruct (Js.truthy (Js.prop tags "operator")) eqn:H3;
    rewrite ?H1, ?H2, ?H3; reflexivity.
Qed.

Lemma get_not_nullish el k :
  Js.isNullish el = false -> Js.get el k = Returns (Js.prop el k).
Proof. destruct el; simpl; intros Hn; try discriminate; reflexivity. Qed.

Lemma get_returns el k v : Js.get el k = Returns v -> v = Js.prop el k.
Proof. destruct el; simpl; intros Hg; inversion Hg; reflexivity. Qed.

(** What a kept element looks like. *)
Lemma mapElement_kept el p :
  mapElement el = Returns (Some p) ->
  exists s,
    nameCandidate (tagsOf el) = VStr s /\
    OsmPlace.name p = JsString.trim s /\
    OsmPlace.name p <> "" /\
    latOf el = VNum (OsmPlace.lat p) /\
    lngOf el = VNum (OsmPlace.lng p).
Proof.
  unfold mapElement, bindOutcome, tagsOf. intros Hm.
  destruct (Js.get el "tags") as [t|e] eqn:Ht; [|discriminate].
  apply get_returns in Ht. subst t.
  destruct (latOf el) as [| |?|a|?|?|?]; try discriminate.
  destruct (lngOf el) as [| |?|b|?|?|?]; try discriminate.
  destruct (nameCandidate (Js.coalesce (Js.prop el "tags") (VObj []))) as [| |?|?|s|?|?];
    try discriminate.
  cbn [callTrim] in Hm.
  destruct (JsString.trim s) as [|c r] eqn:Htrim; [discriminate|]. cbn in Hm.
  destruct (joinValues ", " _); [|discriminate].
  destruct (toStr (Js.prop el "type")); [|discriminate].
  destruct (toStr (Js.prop el "id")); [|discriminate].
  inversion Hm; subst p. cbn. exists s. repeat split; auto.
Qed.

Lemma mapElement_blank el s :
  Js.isNullish el = false ->
  nameCandidate (tagsOf el) = VStr s ->
  JsString.trim s = "" ->
  mapElement el = Returns None.
Proof.
  intros Hn Hs Htrim. unfold mapElement. rewrite (get_not_nullish _ _ Hn). cbn [bindOutcome].
  fold (tagsOf el). rewrite Hs. cbn [callTrim bindOutcome]. rewrite Htrim. cbn.
  destruct (latOf el); try reflexivity. destruct (lngOf el); reflexivity.
Qed.

Lemma mapElement_unnamed el :
  Js.isNullish el = false ->
  Forall (fun v => Js.truthy v = false) (nameTags (tagsOf el)) ->
  mapElement el = Returns None.
Proof.
  intros Hn Hall. unfold mapElement. rewrite (get_not_nullish _ _ Hn). cbn [bindOutcome].
  fold (tagsOf el).
  assert (Hc : nameCandidate (tagsOf el) = VStr "").
  { rewrite nameCandidate_firstNonEmpty. unfold firstNonEmpty.
    unfold nameTags in *. inversion Hall as [|? ? H1 Hall1]; subst.
    inversion Hall1 as [|? ? H2 Hall2]; subst. inversion Hall2 as [|? ? H3 _]; subst.
    cbn [find]. rewrite H1, H2, H3. reflexivity. }
  rewrite Hc. cbn.
  destruct (latOf el); try reflexivity. destruct (lngOf el); reflexivity.
Qed.

Lemma mapElement_no_coordinate el :
  Js.isNullish el = false ->
  Js.isNumber (latOf el) && Js.isNumber (lngOf el) = false ->
  mapElement el = Returns None.
Proof.
  intros Hn Hc. unfold mapElement. rewrite (get_not_nullish _ _ Hn). cbn [bindOutcome].
  destruct (latOf el); try reflexivity. destruct (lngOf el); try reflexivity.
  discriminate.
Qed.

Lemma mapElements_drop_null pre el post :
  mapElement el = Returns None ->
  compactOutcome (mapElements (pre ++ el :: post)) = compactOutcome (mapElements (pre ++ post)).
Proof.
  intros Hel. induction pre as [|x pre IH]; cbn [app mapElements].
  - rewrite Hel. cbn. destruct (mapElements post); reflexivity.
  - destruct (mapElement x) as [p|e]; [|reflexivity]. cbn [bindOutcome].
    destruct (mapElements (pre ++ el :: post)) as [ps|e], (mapElements (pre ++ post)) as [ps'|e'];
      cbn in IH |- *; inversion IH; subst; reflexivity.
Qed.

Lemma mapped_response els :
  mapped (response els) = compactOutcome (mapElements els).
Proof. unfold mapped, elements, response. cbn. destruct (mapElements els); reflexivity. Qed.

Lemma mapElements_named els : forall ps,
  mapElements els = Returns ps -> Forall named (compact ps).
Proof.
  induction els as [|el els IH]; intros ps Hm; cbn in Hm.
  - inversion Hm. constructor.
  - destruct (mapElement el) as [p|e] eqn:Hel; [|discriminate]. cbn in Hm.
    destruct (mapElements els) as [ps'|e]; [|discriminate]. inversion Hm; subst.
    destruct p as [p|]; cbn; [|auto]. constructor; [|auto].
    destruct (mapElement_kept _ _ Hel) as (s & _ & _ & Hne & _). exact Hne.
Qed.

Lemma mapped_named d m : mapped d = Returns m -> Forall named m.
Proof.
  unfold mapped. intros Hm.
  destruct (elements d) as [els|e]; [|discriminate]. cbn in Hm.
  destruct (mapElements els) as [ps|e] eqn:Hps; [|discriminate]. inversion Hm; subst.
  eapply mapElements_named; eauto.
Qed.

Lemma Forall_firstn {A} (P : A -> Prop) n (l : list A) : Forall P l -> Forall P (firstn n l).
Proof.
  intros Hl. revert n. induction Hl as [|x l Hx Hl IH]; intros [|n]; cbn; constructor; auto.
Qed.

Lemma result_named options m : Forall named m -> Forall named (result options m).
Proof.
  intros Hm. unfold result, slice0. apply Forall_firstn. unfold filtered.
  destruct (JsString.nonEmpty (queryLower options)); [|exact Hm].
  rewrite List.Forall_forall in *. intros p Hp. apply List.filter_In in Hp. apply Hm, Hp.
Qed.

Lemma fetch_named origin options w r w' :
  namedCache (cache w) ->
  fetchNearbyOsmPlaces origin options w = (Returns r, w') ->
  Forall named r /\ namedCache (cache w').
Proof.
  intros Hinv Hrun.
  destruct (parts options) as [|p0 ps0] eqn:Hp.
  { rewrite lookup_no_kinds in Hrun by exact Hp. inversion Hrun; subst. split; [constructor|exact Hinv]. }
  assert (Hne : parts options <> []) by (rewrite Hp; discriminate).
  destruct (freshEntry (cacheKey origin options) w) as [c|] eqn:Hf.
  { rewrite (lookup_hit _ _ _ _ Hne Hf) in Hrun. inversion Hrun; subst.
    split; [|exact Hinv]. unfold freshEntry in Hf.
    destruct (cache w' !! cacheKey origin options) as [c'|] eqn:Hc; [|discriminate].
    destruct (now w' - at_ c' <? 60000); inversion Hf; subst. eapply Hinv; eauto. }
  rewrite (lookup_miss _ _ _ Hne Hf), fetchFresh_run in Hrun.
  pose proof (overpassFetch_frame (q origin options) w) as Hfr. cbv zeta in Hfr.
  destruct (overpassFetch (q origin options) w) as [[d|e] w1]; [|discriminate].
  destruct (mapped d) as [m|e] eqn:Hm; [|discriminate].
  inversion Hrun; subst. cbn [snd] in Hfr. destruct Hfr as (Hc & _).
  pose proof (result_named options m (mapped_named _ _ Hm)) as Hr.
  split; [exact Hr|]. unfold stored; cbn [cache]. intros k c Hk.
  destruct (decide (cacheKey origin options = k)) as [Heq|Hneq].
  - subst k. rewrite lookup_insert_eq in Hk. inversion Hk; subst. exact Hr.
  - rewrite lookup_insert_ne in Hk by exact Hneq. rewrite Hc in Hk. eapply Hinv; eauto.
Qed.

End ElementFacts.

(** * The specified properties *)

Section Properties.
Context `{Host}.

(** C2, as the code has it: the cache key is the latitude and the longitude
    printed with five decimals, the clamped radius, the categories joined in
    the order the caller gave them (no sorting), and the trimmed, lower-cased
    text filter.  For requests that agree on the first three parts the keys
    are equal exactly when the category lists are equal as lists and the
    filters agree, so the same categories in another order give another
    key. *)
Theorem C2_fingerprint_keeps_category_order origin options :
  cacheKey origin options
  = toFixed 5 (OsmLatLng.lat origin) +:+ "," +:+ toFixed 5 (OsmLatLng.lng origin)
    +:+ "|" +:+ number_to_string
                  (JsNumber.max (num 100)
                     (JsNumber.min (Options.radiusMeters options) (num 50000)))
    +:+ "|" +:+ JsString.join "," (map kindName (Options.kinds options))
    +:+ "|" +:+ JsString.toLowerCase
                  (JsString.trim
                     (match Options.query options with Some s => s | None => "" end))
  /\
  forall origin' options',
    toFixed 5 (OsmLatLng.lat origin') = toFixed 5 (OsmLatLng.lat origin) ->
    toFixed 5 (OsmLatLng.lng origin') = toFixed 5 (OsmLatLng.lng origin) ->
    radius options' = radius options ->
    (cacheKey origin' options' = cacheKey origin options <->
     Options.kinds options' = Options.kinds options /\
     queryLower options' = queryLower options).
Proof.
  split; [reflexivity|].
  intros origin' options' Hlat Hlng Hrad. unfold cacheKey.
  rewrite Hlat, Hlng, Hrad. split.
  - intros Heq.
    repeat (apply StringFacts.append_inv_head in Heq).
    apply KeyFacts.kinds_then_bar in Heq. exact Heq.
  - intros [-> ->]. reflexivity.
Qed.

(** C3: the limit is no part of the cache key.  When a call went to the
    network and returned [r1], a second call that agrees with it on the origin
    to five decimals, the clamped radius, the category list and the trimmed,
    lower-cased filter, made less than sixty seconds after any instant [t] of
    the first, has the same key and returns [r1] as stored, whatever its own
    limit, and leaves the world as it found it. *)
Theorem C3_limit_not_in_fingerprint o1 opts1 o2 opts2 w r1 w1 t w2 :
  toFixed 5 (OsmLatLng.lat o1) = toFixed 5 (OsmLatLng.lat o2) ->
  toFixed 5 (OsmLatLng.lng o1) = toFixed 5 (OsmLatLng.lng o2) ->
  radius opts1 = radius opts2 ->
  Options.kinds opts1 = Options.kinds opts2 ->
  queryLower opts1 = queryLower opts2 ->
  fetchNearbyOsmPlaces o1 opts1 w = (Returns r1, w1) ->
  requests w1 <> requests w ->
  cache w2 !! cacheKey o1 opts1 = cache w1 !! cacheKey o1 opts1 ->
  t <= now w1 ->
  now w2 - t < 60000 ->
  cacheKey o2 opts2 = cacheKey o1 opts1 /\
  fetchNearbyOsmPlaces o2 opts2 w2 = (Returns r1, w2).
Proof.
  intros Hlat Hlng Hrad Hkinds Hq Hrun Hreq Hsame Ht Hage.
  assert (Hkey : cacheKey o2 opts2 = cacheKey o1 opts1).
  { unfold cacheKey. rewrite Hlat, Hlng, Hrad, Hkinds, Hq. reflexivity. }
  split; [exact Hkey|].
  destruct (stored_after_fetch _ _ _ _ _ Hrun Hreq) as [Hp Hc].
  rewrite <- Hsame, <- Hkey in Hc.
  assert (Hk2 : Options.kinds opts2 <> []).
  { rewrite <- Hkinds. intros Hnil. apply Hp. apply parts_nil. exact Hnil. }
  rewrite (cache_hit o2 opts2 w2 _ Hk2 Hc); [reflexivity|simpl; lia].
Qed.

(** C4: when a call went to the network and returned [r], the same request
    issued again less than sixty seconds after any instant [t] of that call
    (its start, or the moment it stored its result) returns the same [r]; the
    world is unchanged, so no request is sent, nothing is normalised again and
    the cache is not written. *)
Theorem C4_second_call_served_from_cache origin options w r w1 t w2 :
  fetchNearbyOsmPlaces origin options w = (Returns r, w1) ->
  requests w1 <> requests w ->
  cache w2 !! cacheKey origin options = cache w1 !! cacheKey origin options ->
  t <= now w1 ->
  now w2 - t < 60000 ->
  fetchNearbyOsmPlaces origin options w2 = (Returns r, w2).
Proof.
  intros Hrun Hreq Hsame Ht Hage.
  destruct (stored_after_fetch _ _ _ _ _ Hrun Hreq) as [Hp Hc].
  rewrite <- Hsame in Hc.
  rewrite (cache_hit origin options w2 _ (proj1 (not_iff_compat (parts_nil options)) Hp) Hc).
  - reflexivity.
  - simpl. lia.
Qed.


(** C7, as the code has it: the name of a kept element is the first non-empty
    of its [name], [brand] and [operator] tags with the surrounding white
    space trimmed off, and it is not empty; an element whose three candidates
    are all empty or absent is dropped, and so is one whose first non-empty
    candidate is white space only; a dropped element leaves no trace in
    the list the filter and the limit work on; and every place a call returns
    has a name, from the network or from a cache that only such calls
    filled. *)
Theorem C7_display_name :
  (forall el p,
      mapElement el = Returns (Some p) ->
      exists s,
        firstNonEmpty (nameTags (tagsOf el)) = VStr s /\
        OsmPlace.name p = JsString.trim s /\
        OsmPlace.name p <> "") /\
  (forall el,
      Js.isNullish el = false ->
      Forall (fun v => Js.truthy v = false) (nameTags (tagsOf el)) ->
      mapElement el = Returns None) /\
  (forall el s,
      Js.isNullish el = false ->
      firstNonEmpty (nameTags (tagsOf el)) = VStr s ->
      JsString.trim s = "" ->
      mapElement el = Returns None) /\
  (forall pre el post,
      mapElement el = Returns None ->
      mapped (response (pre ++ el :: post)) = mapped (response (pre ++ post))) /\
  (forall origin options w r w',
      namedCache (cache w) ->
      fetchNearbyOsmPlaces origin options w = (Returns r, w') ->
      Forall named r /\ namedCache (cache w')).
Proof.
  split; [|split; [|split; [|split]]].
  - intros el p Hm. destruct (mapElement_kept _ _ Hm) as (s & Hs & Hn & Hne & _).
    exists s. rewrite <- nameCandidate_firstNonEmpty. auto.
  - exact mapElement_unnamed.
  - intros el s Hn Hs Htrim. rewrite <- nameCandidate_firstNonEmpty in Hs.
    eapply mapElement_blank; eauto.
  - intros pre el post Hel. rewrite !mapped_response. apply mapElements_drop_null, Hel.
  - intros origin options w r w' Hinv Hrun. eapply fetch_named; eauto.
Qed.

(** C8, as the code has it: each component of the coordinate is read on its
    own, from the element when the element has a number there and from its
    [center] otherwise, whatever the other component does.  An element with
    both [lat] and [lon] keeps them; one with neither takes its centre's;
    one with only one of the two keeps that one and takes the other from
    its centre.  The element is dropped when, for one of the two
    components, neither the element nor its centre has a number.  A kept
    place carries the two components.  Any number will do, finite or not:
    an element whose two components are numbers is dropped for its name
    only. *)
Theorem C8_coordinate_per_component el :
  Js.isNullish el = false ->
  (forall a b,
      Js.prop el "lat" = VNum a -> Js.prop el "lon" = VNum b ->
      latOf el = VNum a /\ lngOf el = VNum b) /\
  (forall a b,
      Js.isNumber (Js.prop el "lat") = false ->
      Js.isNumber (Js.prop el "lon") = false ->
      Js.getOpt (Js.prop el "center") "lat" = VNum a ->
      Js.getOpt (Js.prop el "center") "lon" = VNum b ->
      latOf el = VNum a /\ lngOf el = VNum b) /\
  (forall a b,
      Js.prop el "lat" = VNum a ->
      Js.isNumber (Js.prop el "lon") = false ->
      Js.getOpt (Js.prop el "center") "lon" = VNum b ->
      latOf el = VNum a /\ lngOf el = VNum b) /\
  (forall a b,
      Js.isNumber (Js.prop el "lat") = false ->
      Js.getOpt (Js.prop el "center") "lat" = VNum a ->
      Js.prop el "lon" = VNum b ->
      latOf el = VNum a /\ lngOf el = VNum b) /\
  (Js.isNumber (Js.prop el "lat") = false /\
   Js.isNumber (Js.getOpt (Js.prop el "center") "lat") = false \/
   Js.isNumber (Js.prop el "lon") = false /\
   Js.isNumber (Js.getOpt (Js.prop el "center") "lon") = false ->
   mapElement el = Returns None) /\
  (Js.isNumber (latOf el) && Js.isNumber (lngOf el) = false ->
   mapElement el = Returns None) /\
  (forall p,
      mapElement el = Returns (Some p) ->
      latOf el = VNum (OsmPlace.lat p) /\ lngOf el = VNum (OsmPlace.lng p)) /\
  (forall a b,
      latOf el = VNum a -> lngOf el = VNum b ->
      mapElement el = Returns None ->
      callTrim (nameCandidate (tagsOf el)) = Returns "").
Proof.
  intros Hn. repeat apply conj.
  - intros a b Hlat Hlon. unfold latOf, lngOf. rewrite Hlat, Hlon. auto.
  - intros a b Hlat Hlon Hclat Hclon. unfold latOf, lngOf. rewrite Hlat, Hlon. auto.
  - intros a b Hlat Hlon Hclon. unfold latOf, lngOf. rewrite Hlat, Hlon. auto.
  - intros a b Hlat Hclat Hlon. unfold latOf, lngOf. rewrite Hlat, Hlon. auto.
  - intros [[Hd Hc]|[Hd Hc]]; apply mapElement_no_coordinate; try exact Hn;
      unfold latOf, lngOf; rewrite Hd, Hc; [reflexivity|apply andb_false_r].
  - apply mapElement_no_coordinate, Hn.
  - intros p Hm. destruct (mapElement_kept _ _ Hm) as (s & _ & _ & _ & Hlat & Hlng). auto.
  - intros a b Hlat Hlng. unfold mapElement. rewrite (get_not_nullish _ _ Hn).
    cbn [bindOutcome]. fold (tagsOf el). rewrite Hlat, Hlng.
    destruct (callTrim (nameCandidate (tagsOf el))) as [s|e]; cbn [bindOutcome];
      [|discriminate].
    destruct s as [|c r]; [reflexivity|]. cbn.
    destruct (joinValues ", " _); cbn; [|discriminate].
    destruct (toStr (Js.prop el "type")); cbn; [|discriminate].
    destruct (toStr (Js.prop el "id")); cbn; discriminate.
Qed.

(** The guard of line 122: when the cache does not answer and the network
    returns a value other than [null] whose [elements] property is missing
    or no array (an object without it, such as [{}], or any string, number,
    boolean or array), the call returns the empty list. *)
Lemma malformed_response_is_empty origin options w d w1 :
  freshEntry (cacheKey origin options) w = None ->
  overpassFetch (q origin options) w = (Returns d, w1) ->
  Js.isNullish d = false ->
  (forall l, Js.prop d "elements" <> VArr l) ->
  fst (fetchNearbyOsmPlaces origin options w) = Returns [].
Proof.
  intros Hmiss Hfetch Hd Hel.
  destruct (parts options) as [|p ps] eqn:Hp.
  { rewrite lookup_no_kinds by exact Hp. reflexivity. }
  rewrite lookup_miss by (rewrite ?Hp; (discriminate || exact Hmiss)).
  rewrite fetchFresh_run, Hfetch.
  assert (Hm : mapped d = Returns []).
  { unfold mapped, elements, Js.get. unfold Js.prop, Js.getOpt in Hel.
    destruct d as [| |b|n|s|items|props]; try discriminate; try reflexivity.
    cbn. destruct (Js.lookupProp "elements" props) as [| |b|n|s|items|ps']; try reflexivity.
    exfalso. eapply Hel. reflexivity. }
  rewrite Hm. cbn [fst]. unfold result, filtered, slice0.
  destruct (JsString.nonEmpty (queryLower options)); cbn; rewrite firstn_nil; reflexivity.
Qed.

(** C10: with a text filter that is not empty once trimmed and lower-cased, a
    call that goes to the network returns the first [limit] of the places
    kept, in the order of the response; the places kept are exactly those of
    the whole normalised list whose name or address contains the trimmed
    filter, case ignored. *)
Theorem C10_text_filter origin options text w d w1 m :
  Options.query options = Some text ->
  queryLower options <> "" ->
  Options.kinds options <> [] ->
  freshEntry (cacheKey origin options) w = None ->
  overpassFetch (q origin options) w = (Returns d, w1) ->
  mapped d = Returns m ->
  let kept := List.filter (matchesQuery (queryLower options)) m in
  fst (fetchNearbyOsmPlaces origin options w) = Returns (slice0 kept (limit options)) /\
  forall p, In p kept <->
            In p m /\
            (containsIgnoringCase (OsmPlace.name p) (JsString.trim text) \/
             containsIgnoringCase (OsmPlace.address p) (JsString.trim text)).
Proof.
  intros Htext Hne Hk Hmiss Hfetch Hm kept. subst kept. split.
  - rewrite lookup_miss by (rewrite ?parts_nil; assumption).
    rewrite fetchFresh_run, Hfetch, Hm. cbn [fst]. unfold result, filtered.
    apply StringFacts.nonEmpty_true in Hne. rewrite Hne. reflexivity.
  - intros p. rewrite List.filter_In. unfold matchesQuery, queryLower. rewrite Htext.
    rewrite orb_true_iff, !StringFacts.includes_ignoring_case. reflexivity.
Qed.

End Properties.

(** * Further properties *)

(** ** [overpassFetch] *)

Lemma failedAttempts_succ query from k :
  failedAttempts query from (S k)
  = [Request (endpointOf from) (Form.body query); Sleep (400 * (Z.of_nat from + 1))]
    ++ failedAttempts query (S from) k.
Proof. reflexivity. Qed.

Lemma loop_first_answer query v k : forall remaining attempt lastErr w,
  (k < remaining)%nat ->
  (forall i, (i < k)%nat -> failure (network w (requests w + i)) <> None) ->
  payload (network w (requests w + k)) = Some v ->
  fst (overpassFetch_loop remaining attempt query lastErr w) = Returns v /\
  requests (snd (overpassFetch_loop remaining attempt query lastErr w))
    = (requests w + k + 1)%nat /\
  trace (snd (overpassFetch_loop remaining attempt query lastErr w))
    = trace w ++ failedAttempts query attempt k
              ++ [Request (endpointOf (attempt + k)) (Form.body query)].
Proof.
  induction k as [|k IH]; intros remaining attempt lastErr w Hk Hfail Hans.
  - destruct remaining as [|remaining]; [lia|].
    rewrite Nat.add_0_r in Hans. rewrite (loop_answered _ _ _ _ _ _ Hans).
    cbn [fst snd afterRequest requests trace failedAttempts flat_map seq app].
    rewrite !Nat.add_0_r. split; [reflexivity|]. split; [lia|reflexivity].
  - destruct remaining as [|remaining]; [lia|].
    destruct (failure (network w (requests w))) as [e|] eqn:He.
    2:{ exfalso. apply (Hfail 0%nat); [lia|]. rewrite Nat.add_0_r. exact He. }
    rewrite (loop_failed _ _ _ _ _ _ He).
    set (w1 := afterBackoff attempt (afterRequest attempt query w)).
    assert (Hn : network w1 = network w) by reflexivity.
    assert (Hr : requests w1 = S (requests w)) by reflexivity.
    destruct (IH remaining (S attempt) (Some e) w1) as (Hv & Hreq & Htr).
    + lia.
    + intros i Hi. rewrite Hn, Hr.
      replace (S (requests w) + i)%nat with (requests w + S i)%nat by lia.
      apply Hfail. lia.
    + rewrite Hn, Hr. replace (S (requests w) + k)%nat with (requests w + S k)%nat by lia.
      exact Hans.
    + split; [exact Hv|]. split; [rewrite Hreq, Hr; lia|].
      rewrite Htr. subst w1. cbn [afterBackoff afterRequest trace].
      rewrite failedAttempts_succ. rewrite <- !app_assoc. cbn [app].
      replace (S attempt + k)%nat with (attempt + S k)%nat by lia. reflexivity.
Qed.

(** X1: the first attempt that is answered ends the call.  When the first [k]
    attempts fail ([k] is 0, 1 or 2) and the next one is answered, the call
    returns that answer after [k + 1] requests, sent to the mirrors in turn,
    with a pause of 400 ms times the attempt number after each failure and
    none after the answer. *)
Theorem X1_first_answer_wins query w k v :
  (k < 3)%nat ->
  (forall i, (i < k)%nat -> failure (network w (requests w + i)) <> None) ->
  payload (network w (requests w + k)) = Some v ->
  fst (overpassFetch query w) = Returns v /\
  requests (snd (overpassFetch query w)) = (requests w + k + 1)%nat /\
  trace (snd (overpassFetch query w))
    = trace w ++ failedAttempts query 0 k ++ [Request (endpointOf k) (Form.body query)].
Proof.
  intros Hk Hfail Hans. unfold overpassFetch.
  exact (loop_first_answer query v k 3 0 None w Hk Hfail Hans).
Qed.

(** X2: the call gives up only after three attempts: when it throws, three
    requests were sent, each of the three failed, and the value thrown is an
    [Error] object. *)
Theorem X2_throws_only_after_three_failures query w e :
  fst (overpassFetch query w) = Throws e ->
  (exists m, e = ErrorObject m) /\
  requests (snd (overpassFetch query w)) = (requests w + 3)%nat /\
  (forall i, (i < 3)%nat -> failure (network w (requests w + i)) <> None).
Proof.
  intros Hthrow.
  assert (Hcases :
    (exists k v, (k < 3)%nat /\
       (forall i, (i < k)%nat -> failure (network w (requests w + i)) <> None) /\
       payload (network w (requests w + k)) = Some v) \/
    (exists e0 e1 e2,
       failure (network w (requests w)) = Some e0 /\
       failure (network w (S (requests w))) = Some e1 /\
       failure (network w (S (S (requests w)))) = Some e2)).
  { destruct (payload_failure (network w (requests w))) as [(v & Hv & _)|(e0 & He0 & _)].
    { left. exists 0%nat, v. rewrite Nat.add_0_r. repeat split; [lia| |exact Hv].
      intros i Hi. lia. }
    destruct (payload_failure (network w (S (requests w)))) as [(v & Hv & _)|(e1 & He1 & _)].
    { left. exists 1%nat, v. replace (requests w + 1)%nat with (S (requests w)) by lia.
      repeat split; [lia| |exact Hv].
      intros i Hi. assert (i = 0)%nat as -> by lia. rewrite Nat.add_0_r. congruence. }
    destruct (payload_failure (network w (S (S (requests w))))) as [(v & Hv & _)|(e2 & He2 & _)].
    { left. exists 2%nat, v. replace (requests w + 2)%nat with (S (S (requests w))) by lia.
      repeat split; [lia| |exact Hv].
      intros i Hi. destruct i as [|[|i]]; [| |lia].
      - rewrite Nat.add_0_r. congruence.
      - replace (requests w + 1)%nat with (S (requests w)) by lia. congruence. }
    right. exists e0, e1, e2. auto. }
  destruct Hcases as [(k & v & Hk & Hfail & Hans)|(e0 & e1 & e2 & H0 & H1 & H2)].
  { destruct (loop_first_answer query v k 3 0 None w Hk Hfail Hans) as (Hv & _).
    unfold overpassFetch in Hthrow. congruence. }
  unfold overpassFetch in *.
  rewrite (loop_failed _ _ _ _ _ _ H0) in Hthrow |- *.
  rewrite (loop_failed _ _ _ _ _ e1) in Hthrow |- * by exact H1.
  rewrite (loop_failed _ _ _ _ _ e2) in Hthrow |- * by exact H2.
  cbn in Hthrow. split; [|split].
  - destruct e2 as [m|what]; inversion Hthrow; eauto.
  - cbn. lia.
  - intros i Hi. destruct i as [|[|[|i]]]; [| | |lia].
    + rewrite Nat.add_0_r. congruence.
    + replace (requests w + 1)%nat with (S (requests w)) by lia. congruence.
    + replace (requests w + 2)%nat with (S (S (requests w))) by lia. congruence.
Qed.

(** X3: the call neither reads nor writes the cache: run with any other
    cache it has the same outcome and hands that cache back untouched; it
    leaves the network as it was and the clock no earlier. *)
Theorem X3_overpassFetch_leaves_the_cache_alone query w m :
  overpassFetch query (withCache m w)
  = (fst (overpassFetch query w), withCache m (snd (overpassFetch query w))) /\
  cache (snd (overpassFetch query w)) = cache w /\
  network (snd (overpassFetch query w)) = network w /\
  now w <= now (snd (overpassFetch query w)).
Proof.
  split; [apply loop_withCache|].
  pose proof (overpassFetch_frame query w) as Hf. cbv zeta in Hf.
  destruct Hf as (Hc & Hn & _ & Ht). auto.
Qed.

(** ** [fetchNearbyOsmPlaces] *)

Section LookupProperties.
Context `{Host}.

(** The three ways through a call. *)
Lemma run_cases origin options w :
  (Options.kinds options = [] /\
   fetchNearbyOsmPlaces origin options w = (Returns [], w)) \/
  (Options.kinds options <> [] /\
   exists c, freshEntry (cacheKey origin options) w = Some c /\
             fetchNearbyOsmPlaces origin options w = (Returns (data c), w)) \/
  (Options.kinds options <> [] /\
   freshEntry (cacheKey origin options) w = None /\
   fetchNearbyOsmPlaces origin options w = fetchFresh origin options w).
Proof.
  destruct (Options.kinds options) as [|k ks] eqn:Hk.
  { left. split; [reflexivity|]. apply lookup_no_kinds, parts_nil, Hk. }
  right. assert (Hp : parts options <> []) by (rewrite parts_nil, Hk; discriminate).
  destruct (freshEntry (cacheKey origin options) w) as [c|] eqn:Hf.
  - left. split; [discriminate|]. exists c. split; [reflexivity|]. apply lookup_hit; assumption.
  - right. split; [discriminate|]. split; [reflexivity|]. apply lookup_miss; assumption.
Qed.

(** What a call that used the network returns. *)
Lemma fresh_result origin options w r :
  fst (fetchNearbyOsmPlaces origin options w) = Returns r ->
  requests (snd (fetchNearbyOsmPlaces origin options w)) <> requests w ->
  exists d m,
    fst (overpassFetch (q origin options) w) = Returns d /\
    mapped d = Returns m /\ r = result options m.
Proof.
  intros Hr Hreq.
  destruct (run_cases origin options w) as [[_ Hrun]|[(_ & c & _ & Hrun)|(_ & _ & Hrun)]];
    rewrite Hrun in Hr, Hreq; cbn in Hreq; try congruence.
  rewrite fetchFresh_run in Hr.
  destruct (overpassFetch (q origin options) w) as [[d|e] w1]; [|discriminate].
  destruct (mapped d) as [m|e] eqn:Hm; [|discriminate].
  cbn in Hr. inversion Hr. exists d, m. auto.
Qed.

(** X4: a call goes to the network exactly when it asks for some category
    and the cache holds no entry for its key that is younger than sixty
    seconds.  In the other cases it changes nothing at all; in this one it
    sends between one and three requests. *)
Theorem X4_network_used_exactly_on_a_miss origin options w :
  (requests (snd (fetchNearbyOsmPlaces origin options w)) = requests w <->
   Options.kinds options = [] \/ freshEntry (cacheKey origin options) w <> None) /\
  (requests (snd (fetchNearbyOsmPlaces origin options w)) = requests w ->
   snd (fetchNearbyOsmPlaces origin options w) = w) /\
  (requests w <= requests (snd (fetchNearbyOsmPlaces origin options w))
   <= requests w + 3)%nat.
Proof.
  pose proof (fetchFresh_frame origin options w) as Hfr. cbv zeta in Hfr.
  destruct Hfr as (_ & Hreq & _).
  destruct (run_cases origin options w) as [[Hk Hrun]|[(Hk & c & Hf & Hrun)|(Hk & Hf & Hrun)]];
    rewrite Hrun; cbn [snd].
  - repeat split; auto; lia.
  - repeat split; auto; try lia. intros _. right. congruence.
  - repeat split; try lia. intros [Hnil|Hfresh]; congruence.
Qed.

(** X5: what a call does to the cache.  It writes under its own key only;
    it never removes an entry; and a call that throws leaves the whole cache
    as it was, so a failure is never remembered. *)
Theorem X5_cache_discipline origin options w :
  (forall k, k <> cacheKey origin options ->
             cache (snd (fetchNearbyOsmPlaces origin options w)) !! k = cache w !! k) /\
  (forall k, is_Some (cache w !! k) ->
             is_Some (cache (snd (fetchNearbyOsmPlaces origin options w)) !! k)) /\
  (forall e, fst (fetchNearbyOsmPlaces origin options w) = Throws e ->
             cache (snd (fetchNearbyOsmPlaces origin options w)) = cache w).
Proof.
  pose proof (fetchFresh_frame origin options w) as Hfr. cbv zeta in Hfr.
  destruct Hfr as (_ & _ & _ & Hcache).
  destruct (run_cases origin options w) as [[Hk Hrun]|[(Hk & c & Hf & Hrun)|(Hk & Hf & Hrun)]];
    rewrite Hrun; cbn [fst snd]; [auto|auto|].
  destruct (fst (fetchFresh origin options w)) as [r|e0].
  - rewrite Hcache. split; [|split].
    + intros k Hne. apply lookup_insert_ne. congruence.
    + intros k Hsome. destruct (decide (cacheKey origin options = k)) as [Heq|Hne].
      * subst k. rewrite lookup_insert_eq. eauto.
      * rewrite lookup_insert_ne by exact Hne. exact Hsome.
    + discriminate.
  - rewrite Hcache. auto.
Qed.

Lemma slice0_at_most {A} (l : list A) (n : number) (b : Z) :
  JsNumber.between 1 n b -> Z.of_nat (length (slice0 l n)) <= b.
Proof.
  destruct n as [| |q]; cbn [JsNumber.between]; try tauto. intros [Hlo Hhi].
  assert (H0 : (Q2Qc 0 <= q)%Qc).
  { eapply Qcle_trans; [|exact Hlo]. apply (NumberFacts.num_le 0 1). lia. }
  destruct (NumberFacts.truncate_le q H0) as [Hk Hkq].
  pose proof (NumberFacts.slice0_length l q Hk) as Hlen.
  assert (Hkb : (Q2Qc (inject_Z (JsNumber.truncate q)) <= Q2Qc (inject_Z b))%Qc).
  { eapply Qcle_trans; eauto. }
  unfold Qcle in Hkb. cbn [this Q2Qc] in Hkb. rewrite !Qred_correct in Hkb.
  rewrite <- Zle_Qle in Hkb. lia.
Qed.

(** X6: a call that used the network returns at most 50 places whatever
    limit it was given, at most 30 when no limit was given, and none at all
    when the limit is [NaN]. *)
Theorem X6_fresh_result_is_bounded origin options w r :
  fst (fetchNearbyOsmPlaces origin options w) = Returns r ->
  requests (snd (fetchNearbyOsmPlaces origin options w)) <> requests w ->
  (length r <= 50)%nat /\
  (Options.limit options = None -> (length r <= 30)%nat) /\
  (Options.limit options = Some NaN -> r = []).
Proof.
  intros Hr Hreq. destruct (fresh_result _ _ _ _ Hr Hreq) as (d & m & _ & _ & ->).
  unfold result. split; [|split].
  - assert (Hdec : Options.limit options = Some NaN \/ Options.limit options <> Some NaN).
    { destruct (Options.limit options) as [[| |l]|]; auto; right; discriminate. }
    destruct Hdec as [Hl|Hl].
    + assert (limit options = NaN) as -> by (unfold limit; rewrite Hl; reflexivity).
      unfold slice0. simpl. lia.
    + pose proof (slice0_at_most (filtered (queryLower options) m) _ 50
                    (limit_clamped options Hl)).
      lia.
  - intros Hl. unfold limit. rewrite Hl.
    assert (Hb : JsNumber.between 1 (JsNumber.max (num 1) (JsNumber.min (num 30) (num 50))) 30).
    { vm_compute. split; discriminate. }
    pose proof (slice0_at_most (filtered (queryLower options) m) _ 30 Hb). lia.
  - intros Hl. unfold limit. rewrite Hl. reflexivity.
Qed.

Lemma sublist_List_filter {A} (f : A -> bool) (l : list A) : sublist (List.filter f l) l.
Proof.
  induction l as [|x l IH]; cbn; [constructor|].
  destruct (f x); [apply sublist_skip|apply sublist_cons]; exact IH.
Qed.

Lemma Forall2_sublist_back {A B} (R : A -> B -> Prop) xs ys :
  Forall2 R xs ys ->
  forall ys', sublist ys' ys -> exists xs', sublist xs' xs /\ Forall2 R xs' ys'.
Proof.
  induction 1 as [|x y xs ys Hxy Hrest IH]; intros ys' Hsub.
  - inversion Hsub; subst. exists []. split; constructor.
  - inversion Hsub as [|a l1 l2 Hs|a l1 l2 Hs]; subst.
    + destruct (IH _ Hs) as (xs' & Hxs & Hf). exists (x :: xs'). split.
      * apply sublist_skip, Hxs.
      * constructor; assumption.
    + destruct (IH _ Hs) as (xs' & Hxs & Hf). exists xs'. split; [|exact Hf].
      apply sublist_cons, Hxs.
Qed.

Lemma mapElements_provenance els : forall ps,
  mapElements els = Returns ps ->
  exists kept,
    sublist kept els /\
    Forall2 (fun el p => mapElement el = Returns (Some p)) kept (compact ps).
Proof.
  induction els as [|el els IH]; intros ps Hm; cbn in Hm.
  - inversion Hm. exists []. split; constructor.
  - destruct (mapElement el) as [p|e] eqn:Hel; [|discriminate]. cbn in Hm.
    destruct (mapElements els) as [ps'|e]; [|discriminate]. inversion Hm; subst.
    destruct (IH ps' eq_refl) as (kept & Hsub & Hf).
    destruct p as [p|]; cbn.
    + exists (el :: kept). split; [apply sublist_skip, Hsub|]. constructor; assumption.
    + exists kept. split; [apply sublist_cons, Hsub|exact Hf].
Qed.

(** X7: every place a call fetched comes from an element of the response,
    and the places stand in the order of their elements: nothing is sorted,
    duplicated or invented. *)
Theorem X7_result_follows_the_response origin options w r :
  fst (fetchNearbyOsmPlaces origin options w) = Returns r ->
  requests (snd (fetchNearbyOsmPlaces origin options w)) <> requests w ->
  exists d els kept,
    fst (overpassFetch (q origin options) w) = Returns d /\
    elements d = Returns els /\
    sublist kept els /\
    Forall2 (fun el p => mapElement el = Returns (Some p)) kept r.
Proof.
  intros Hr Hreq. destruct (fresh_result _ _ _ _ Hr Hreq) as (d & m & Hd & Hm & ->).
  unfold mapped in Hm. destruct (elements d) as [els|e] eqn:Hels; [|discriminate].
  cbn in Hm. destruct (mapElements els) as [ps|e] eqn:Hps; [|discriminate].
  inversion Hm; subst m.
  destruct (mapElements_provenance els ps Hps) as (kept & Hsub & Hf).
  assert (Hres : sublist (result options (compact ps)) (compact ps)).
  { unfold result, slice0, filtered.
    etransitivity; [apply sublist_take|].
    destruct (JsString.nonEmpty (queryLower options)); [apply sublist_List_filter|reflexivity]. }
  destruct (Forall2_sublist_back _ _ _ Hf _ Hres) as (kept' & Hsub' & Hf').
  exists d, els, kept'. repeat split; auto. etransitivity; eauto.
Qed.

(** X8: a search text of white space only is no search text: the call does
    what the call without a text does, request for request, with the same
    cache entry and the same unfiltered result. *)
Theorem X8_blank_query_is_no_query origin radiusMeters kinds lim text w :
  JsString.trim text = "" ->
  cacheKey origin (Options.make radiusMeters kinds lim (Some text))
  = cacheKey origin (Options.make radiusMeters kinds lim None) /\
  fetchNearbyOsmPlaces origin (Options.make radiusMeters kinds lim (Some text)) w
  = fetchNearbyOsmPlaces origin (Options.make radiusMeters kinds lim None) w.
Proof.
  intros Htrim.
  assert (Hkey : cacheKey origin (Options.make radiusMeters kinds lim (Some text))
                 = cacheKey origin (Options.make radiusMeters kinds lim None)).
  { unfold cacheKey, queryLower. cbn [Options.query Options.kinds].
    rewrite Htrim. reflexivity. }
  split; [exact Hkey|].
  unfold fetchNearbyOsmPlaces, fetchFresh. rewrite Hkey.
  unfold result, queryLower. cbn [Options.query]. rewrite Htrim. reflexivity.
Qed.

End LookupProperties.

(** ** Addresses, errors and clamps *)

Module TextFacts.

Lemma truthy_text v : textual v -> Js.truthy v = JsString.nonEmpty (text v).
Proof. intros [->|[s ->]]; reflexivity. Qed.

Lemma truthy_is_string v :
  textual v -> Js.truthy v = true -> v = VStr (text v).
Proof. intros [->|[s ->]]; [discriminate|reflexivity]. Qed.

Lemma or_text a b :
  textual a -> textual b ->
  textual (Js.or a b) /\
  text (Js.or a b) = if JsString.nonEmpty (text a) then text a else text b.
Proof.
  intros Ha Hb. unfold Js.or. rewrite (truthy_text a Ha).
  destruct (JsString.nonEmpty (text a)); auto.
Qed.

Lemma filter_truthy vs :
  Forall textual vs ->
  List.filter Js.truthy vs = map VStr (List.filter JsString.nonEmpty (map text vs)).
Proof.
  induction 1 as [|v vs Hv _ IH]; [reflexivity|]. cbn [List.filter map].
  rewrite <- (truthy_text v Hv).
  destruct (Js.truthy v) eqn:Ht; [|exact IH].
  cbn [map]. rewrite <- (truthy_is_string v Hv Ht), IH. reflexivity.
Qed.

Lemma join_not_empty sep l :
  Forall (fun s => JsString.nonEmpty s = true) l -> l <> [] -> JsString.join sep l <> "".
Proof.
  intros Hl Hne. destruct l as [|x rest]; [congruence|].
  inversion Hl as [|? ? Hx _]; subst. destruct x as [|c x]; [discriminate|].
  destruct rest; cbn; discriminate.
Qed.

End TextFacts.

Module ClampFacts.
Import JsNumber.

(** Inside its range the clamp changes nothing. *)
Lemma clamp_inside lo hi x :
  (lo <= hi)%Z -> between lo x hi -> max (num lo) (min x (num hi)) = x.
Proof.
  intros Hle Hb. destruct x as [| |q]; cbn [between] in Hb; try tauto.
  destruct Hb as [Hlo Hhi]. unfold min, max, num. cbn [isNaN orb lt].
  case_bool_decide as H1.
  { exfalso. apply (Qclt_not_le _ _ H1). exact Hhi. }
  cbn [isNaN orb lt]. case_bool_decide as H2; [reflexivity|].
  f_equal. apply Qcle_antisym; [exact Hlo|]. apply Qcnot_lt_le. exact H2.
Qed.

End ClampFacts.

Section ElementProperties.
Context `{Host}.

Lemma joinValues_strings sep l :
  joinValues sep (map VStr l) = Returns (JsString.join sep l).
Proof.
  induction l as [|x l IH]; [reflexivity|].
  cbn [map joinValues Js.isNullish toStr]. destruct l as [|y l]; [reflexivity|].
  cbn [map] in IH |- *. rewrite IH. reflexivity.
Qed.

Lemma mapElement_address el p :
  mapElement el = Returns (Some p) ->
  joinValues ", " (addressParts (tagsOf el)) = Returns (OsmPlace.address p).
Proof.
  unfold mapElement, bindOutcome, tagsOf. intros Hm.
  destruct (Js.get el "tags") as [t|e] eqn:Ht; [|discriminate].
  apply get_returns in Ht. subst t.
  destruct (latOf el) as [| |?|a|?|?|?]; try discriminate.
  destruct (lngOf el) as [| |?|b|?|?|?]; try discriminate.
  destruct (callTrim _) as [rawName|?]; [|discriminate].
  destruct (negb (JsString.nonEmpty rawName)); [discriminate|].
  destruct (joinValues ", " _) as [address|?]; [|discriminate].
  destruct (toStr (Js.prop el "type")); [|discriminate].
  destruct (toStr (Js.prop el "id")); [|discriminate].
  inversion Hm; subst p. reflexivity.
Qed.

Lemma addressParts_textual tags :
  Forall textual (map (Js.prop tags) addressKeys) ->
  addressParts tags = map VStr (addressLine tags).
Proof.
  intros Hall. unfold addressKeys in Hall. cbn [map] in Hall.
  inversion Hall as [|? ? Hhn H1]; subst. inversion H1 as [|? ? Hst H2]; subst.
  inversion H2 as [|? ? Hsu H3]; subst. inversion H3 as [|? ? Hci H4]; subst.
  inversion H4 as [|? ? Hto H5]; subst. inversion H5 as [|? ? Hvi H6]; subst.
  inversion H6 as [|? ? Hsa _]; subst.
  destruct (TextFacts.or_text _ _ Hci Hto) as [Hct Hctt].
  destruct (TextFacts.or_text _ _ Hct Hvi) as [Hloc Hloct].
  unfold addressParts. rewrite TextFacts.filter_truthy.
  2:{ repeat (constructor; [assumption|]). constructor. }
  unfold addressLine, locality, tagText. cbn [map]. rewrite Hloct, Hctt.
  fold (text (Js.prop tags "addr:city")).
  fold (text (Js.prop tags "addr:town")).
  destruct (JsString.nonEmpty (text (Js.prop tags "addr:city"))) eqn:Hc;
    [rewrite Hc|]; reflexivity.
Qed.

(** X9: the address of a place whose address tags are strings is the list of
    those that are present, in the order house number, street, suburb,
    locality, state, joined by a comma and a blank, where the locality is the
    city, else the town, else the village.  It is empty exactly when none of
    them is present. *)
Theorem X9_address_of_textual_tags el p :
  mapElement el = Returns (Some p) ->
  Forall textual (map (Js.prop (tagsOf el)) addressKeys) ->
  OsmPlace.address p = JsString.join ", " (addressLine (tagsOf el)) /\
  (OsmPlace.address p = "" <-> addressLine (tagsOf el) = []).
Proof.
  intros Hm Htext. pose proof (mapElement_address _ _ Hm) as Ha.
  rewrite (addressParts_textual _ Htext), joinValues_strings in Ha.
  inversion Ha as [Heq]. split; [reflexivity|]. split.
  - intros Hempty. destruct (addressLine (tagsOf el)) as [|x l] eqn:Hl; [reflexivity|].
    exfalso. apply (TextFacts.join_not_empty ", " (x :: l)); [|discriminate|exact Hempty].
    rewrite <- Hl. unfold addressLine. apply List.Forall_forall. intros s Hs.
    apply List.filter_In in Hs. apply Hs.
  - intros ->. reflexivity.
Qed.

(** An array prints as its items joined by commas. *)
Lemma toStr_array items : toStr (VArr items) = joinValues "," items.
Proof.
  induction items as [|x rest IH]; [reflexivity|].
  cbn [joinValues]. rewrite <- IH. reflexivity.
Qed.

Lemma joinValues_throws sep l e :
  (forall x e', In x l -> toStr x = Throws e' -> e' = typeError) ->
  joinValues sep l = Throws e -> e = typeError.
Proof.
  induction l as [|x rest IH]; intros Hall; [discriminate|].
  cbn [joinValues].
  assert (Hrest : joinValues sep rest = Throws e -> e = typeError).
  { apply IH. intros y e' Hy. apply Hall. right. exact Hy. }
  destruct (Js.isNullish x).
  - destruct rest as [|y rest']; [discriminate|].
    destruct (joinValues sep (y :: rest')); [discriminate|].
    intros Hthrow. apply Hrest. exact Hthrow.
  - destruct (toStr x) as [sx|ex] eqn:Hx.
    + destruct rest as [|y rest']; [discriminate|].
      destruct (joinValues sep (y :: rest')); [discriminate|].
      intros Hthrow. apply Hrest. exact Hthrow.
    + intros Hthrow. inversion Hthrow; subst. apply (Hall x e); [left; reflexivity|exact Hx].
Qed.

(** Every exception of a conversion to string is a [TypeError]. *)
Lemma toStr_throws (v : JsVal) (e : Thrown) :
  toStr v = Throws e -> e = typeError.
Proof.
  revert v e. fix toStr_throws 1. intros v e.
  destruct v as [| |[|]|n|s|items|props]; try (cbn [toStr]; discriminate).
  - rewrite toStr_array. apply joinValues_throws.
    induction items as [|x rest IH]; intros y e' Hy; [destruct Hy|].
    destruct Hy as [<-|Hy]; [apply toStr_throws|apply IH; exact Hy].
  - cbn [toStr]. destruct (Js.hasOwn "toString" props); [|discriminate].
    intros Hthrow. inversion Hthrow. reflexivity.
Qed.

Lemma mapElement_throws el e : mapElement el = Throws e -> e = typeError.
Proof.
  unfold mapElement, bindOutcome.
  destruct (Js.get el "tags") as [t|e0] eqn:Ht.
  2:{ destruct el; cbn in Ht; inversion Ht; subst; intros Hthrow; inversion Hthrow; reflexivity. }
  destruct (latOf el); try discriminate. destruct (lngOf el); try discriminate.
  destruct (callTrim _) as [rawName|e0] eqn:Hn.
  2:{ unfold callTrim in Hn. destruct (nameCandidate _); inversion Hn; subst;
      intros Hthrow; inversion Hthrow; reflexivity. }
  destruct (negb (JsString.nonEmpty rawName)); [discriminate|].
  destruct (joinValues ", " _) as [address|e0] eqn:Ha.
  2:{ intros Hthrow. inversion Hthrow; subst.
      eapply joinValues_throws; [|exact Ha]. intros x e' _. apply toStr_throws. }
  destruct (toStr (Js.prop el "type")) as [ty|e0] eqn:Hty.
  2:{ intros Hthrow. inversion Hthrow; subst. eapply toStr_throws; eauto. }
  destruct (toStr (Js.prop el "id")) as [i|e0] eqn:Hid.
  2:{ intros Hthrow. inversion Hthrow; subst. eapply toStr_throws; eauto. }
  discriminate.
Qed.

Lemma mapped_throws d e : mapped d = Throws e -> e = typeError.
Proof.
  unfold mapped, elements, bindOutcome.
  destruct (Js.get d "elements") as [v|e0] eqn:Hg.
  2:{ destruct d; cbn in Hg; inversion Hg; subst; intros Hthrow; inversion Hthrow; reflexivity. }
  generalize (match v with VArr l => l | _ => [] end). intros els.
  induction els as [|el els IH]; [discriminate|]. cbn [mapElements bindOutcome].
  destruct (mapElement el) as [p|e0] eqn:Hel.
  - cbn [bindOutcome] in *. destruct (mapElements els) as [ps|e0]; [discriminate|].
    intros Hthrow. apply IH. inversion Hthrow. reflexivity.
  - intros Hthrow. inversion Hthrow; subst. eapply mapElement_throws; eauto.
Qed.

Lemma overpassFetch_throws query w e :
  fst (overpassFetch query w) = Throws e -> exists m, e = ErrorObject m.
Proof.
  intros Hthrow. unfold overpassFetch in Hthrow.
  destruct (payload_failure (network w (requests w))) as [(v & Hv & _)|(e0 & He0 & _)].
  { rewrite (loop_answered _ _ _ _ _ _ Hv) in Hthrow. discriminate. }
  rewrite (loop_failed _ _ _ _ _ _ He0) in Hthrow.
  set (w1 := afterBackoff 0 (afterRequest 0 query w)) in *.
  destruct (payload_failure (network w1 (requests w1))) as [(v & Hv & _)|(e1 & He1 & _)].
  { rewrite (loop_answered _ _ _ _ _ _ Hv) in Hthrow. discriminate. }
  rewrite (loop_failed _ _ _ _ _ _ He1) in Hthrow.
  set (w2 := afterBackoff 1 (afterRequest 1 query w1)) in *.
  destruct (payload_failure (network w2 (requests w2))) as [(v & Hv & _)|(e2 & He2 & _)].
  { rewrite (loop_answered _ _ _ _ _ _ Hv) in Hthrow. discriminate. }
  rewrite (loop_failed _ _ _ _ _ _ He2) in Hthrow. cbn in Hthrow.
  destruct e2 as [m|what]; inversion Hthrow; eauto.
Qed.

Lemma fetch_throws origin options w e :
  fst (fetchNearbyOsmPlaces origin options w) = Throws e -> exists m, e = ErrorObject m.
Proof.
  intros Hthrow.
  destruct (run_cases origin options w) as [[_ Hrun]|[(_ & c & _ & Hrun)|(_ & _ & Hrun)]];
    rewrite Hrun in Hthrow; try discriminate.
  rewrite fetchFresh_run in Hthrow.
  destruct (overpassFetch (q origin options) w) as [[d|e0] w1] eqn:Hfetch.
  - destruct (mapped d) as [m|e0] eqn:Hm; [discriminate|].
    inversion Hthrow; subst. rewrite (mapped_throws _ _ Hm). eexists. reflexivity.
  - inversion Hthrow; subst. apply (overpassFetch_throws (q origin options) w).
    rewrite Hfetch. reflexivity.
Qed.

(** X10: a call never rejects with anything but an [Error] object: the error
    of the last failed attempt, the generic error of [overpassFetch], or the
    [TypeError] a malformed response raises.  The fall-back text of a
    caller's [catch] block is therefore never what it shows. *)
Theorem X10_rejects_with_an_Error_only origin options w e :
  fst (fetchNearbyOsmPlaces origin options w) = Throws e ->
  exists m, e = ErrorObject m /\ forall fallback, messageOf e fallback = m.
Proof.
  intros Hthrow. destruct (fetch_throws _ _ _ _ Hthrow) as [m ->].
  exists m. split; reflexivity.
Qed.

(** X11: a failure is not remembered.  After a call that threw, the same
    request made at any later time goes to the network again. *)
Theorem X11_retry_after_a_failure origin options w e w2 :
  fst (fetchNearbyOsmPlaces origin options w) = Throws e ->
  cache w2 !! cacheKey origin options
  = cache (snd (fetchNearbyOsmPlaces origin options w)) !! cacheKey origin options ->
  now w <= now w2 ->
  (requests w2 < requests (snd (fetchNearbyOsmPlaces origin options w2)))%nat.
Proof.
  intros Hthrow Hsame Hlater.
  destruct (run_cases origin options w) as [[_ Hrun]|[(_ & c & _ & Hrun)|(Hk & Hmiss & Hrun)]];
    rewrite Hrun in Hthrow, Hsame; try discriminate.
  pose proof (fetchFresh_frame origin options w) as Hfr. cbv zeta in Hfr.
  destruct Hfr as (_ & _ & _ & Hcache). rewrite Hthrow in Hcache. rewrite Hcache in Hsame.
  assert (Hmiss2 : freshEntry (cacheKey origin options) w2 = None).
  { unfold freshEntry in *. rewrite Hsame.
    destruct (cache w !! cacheKey origin options) as [c|]; [|reflexivity].
    destruct (Z.ltb_spec (now w - at_ c) 60000); [discriminate|].
    destruct (Z.ltb_spec (now w2 - at_ c) 60000); [lia|reflexivity]. }
  rewrite lookup_miss by (rewrite ?parts_nil; assumption).
  pose proof (fetchFresh_frame origin options w2) as Hfr. cbv zeta in Hfr.
  destruct Hfr as (_ & Hreq & _). lia.
Qed.

(** X12: the two clamps.  A radius that is a number ends in [100, 50000] and
    a limit in [1, 50]; a value already in the range is kept as it is; a
    missing limit is 30; and [NaN] passes through both clamps unchanged. *)
Theorem X12_clamps options :
  (Options.radiusMeters options <> NaN -> JsNumber.between 100 (radius options) 50000) /\
  (JsNumber.between 100 (Options.radiusMeters options) 50000 ->
   radius options = Options.radiusMeters options) /\
  (Options.radiusMeters options = NaN -> radius options = NaN) /\
  (Options.limit options <> Some NaN -> JsNumber.between 1 (limit options) 50) /\
  (forall l, Options.limit options = Some l -> JsNumber.between 1 l 50 ->
             limit options = l) /\
  (Options.limit options = None -> limit options = num 30) /\
  (Options.limit options = Some NaN -> limit options = NaN).
Proof.
  split; [apply radius_clamped|]. split.
  { unfold radius. apply ClampFacts.clamp_inside. lia. }
  split; [intros Hr; unfold radius; rewrite Hr; reflexivity|].
  split; [apply limit_clamped|]. split.
  { intros l Hl Hb. unfold limit. rewrite Hl. apply ClampFacts.clamp_inside; [lia|exact Hb]. }
  split; intros Hl; unfold limit; rewrite Hl; reflexivity.
Qed.

End ElementProperties.

(** ** Well-shaped responses *)

Section ShapeProperties.
Context `{Host}.

Lemma toStr_primitive v : primitive v -> exists s, toStr v = Returns s.
Proof. destruct v as [| |[|]|n|s|items|props]; cbn; intros Hp; try tauto; eauto. Qed.

Lemma nameCandidate_textual tags :
  Forall textual (nameTags tags) ->
  exists s, nameCandidate tags = VStr s.
Proof.
  intros Hall. unfold nameTags in Hall.
  inversion Hall as [|? ? Hn H1]; subst. inversion H1 as [|? ? Hb H2]; subst.
  inversion H2 as [|? ? Ho _]; subst.
  destruct (TextFacts.or_text _ _ Hn Hb) as [Hnb _].
  destruct (TextFacts.or_text _ _ Hnb Ho) as [Hnbo _].
  unfold nameCandidate.
  set (c := Js.or (Js.or (Js.prop tags "name") (Js.prop tags "brand")) (Js.prop tags "operator")) in *.
  unfold Js.or at 1. destruct (Js.truthy c) eqn:Ht; [|eauto].
  rewrite (TextFacts.truthy_is_string c Hnbo Ht). eauto.
Qed.

(** What the callback computes on a well-shaped element. *)
Lemma mapElement_well_shaped el :
  wellShaped el ->
  exists ty i,
    mapElement el =
    Returns (match latOf el, lngOf el with
             | VNum lat, VNum lng =>
                 if negb (JsString.nonEmpty (trimmedName el)) then None
                 else Some (OsmPlace.make (ty +:+ "/" +:+ i) (trimmedName el)
                              (JsString.join ", " (addressLine (tagsOf el)))
                              lat lng (tagsOf el))
             | _, _ => None
             end).
Proof.
  intros (Hn & Hname & Haddr & Hty & Hid).
  destruct (nameCandidate_textual _ Hname) as [s Hs].
  destruct (toStr_primitive _ Hty) as [ty Hty'].
  destruct (toStr_primitive _ Hid) as [i Hid'].
  exists ty, i.
  unfold trimmedName. rewrite <- nameCandidate_firstNonEmpty, Hs.
  unfold mapElement. rewrite (get_not_nullish _ _ Hn). cbn [bindOutcome].
  fold (tagsOf el). rewrite Hs. cbn [callTrim bindOutcome].
  rewrite (addressParts_textual _ Haddr), joinValues_strings, Hty', Hid'. cbn [bindOutcome].
  destruct (latOf el) as [| |?|a|?|?|?]; try reflexivity.
  destruct (lngOf el) as [| |?|b|?|?|?]; try reflexivity.
  destruct (negb (JsString.nonEmpty (JsString.trim s))); reflexivity.
Qed.

Lemma mapElements_well_shaped els :
  Forall wellShaped els -> exists ps, mapElements els = Returns ps.
Proof.
  induction 1 as [|el els Hel _ [ps IH]]; [eexists; reflexivity|].
  destruct (mapElement_well_shaped el Hel) as (ty & i & Ho).
  cbn [mapElements]. rewrite Ho, IH. cbn. eauto.
Qed.

(** X17: a well-shaped element never makes the normalisation throw.  It is
    dropped exactly when one of its two coordinates is no number or its
    trimmed name is empty, and kept, under that name, otherwise. *)
Theorem X17_well_shaped_element_never_throws el :
  wellShaped el ->
  exists o,
    mapElement el = Returns o /\
    (o = None <->
     Js.isNumber (latOf el) && Js.isNumber (lngOf el) = false \/ trimmedName el = "") /\
    (forall p, o = Some p -> OsmPlace.name p = trimmedName el).
Proof.
  intros Hel. destruct (mapElement_well_shaped el Hel) as (ty & i & Ho).
  eexists. split; [exact Ho|].
  destruct (latOf el) as [| |?|a|?|?|?];
    try (split; [split; auto|discriminate]).
  destruct (lngOf el) as [| |?|b|?|?|?];
    try (split; [split; auto|discriminate]).
  destruct (trimmedName el) as [|c r]; cbn.
  - split; [split; auto|discriminate].
  - split.
    + split; [discriminate|]. intros [Hc|Hc]; discriminate.
    + intros p Hp. inversion Hp. reflexivity.
Qed.

(** X18: an answer whose elements are all well shaped is never turned into
    a rejection: whenever the fetch layer delivers one, the call returns
    a list. *)
Theorem X18_well_shaped_response_is_served origin options w d els :
  fst (overpassFetch (q origin options) w) = Returns d ->
  elements d = Returns els ->
  Forall wellShaped els ->
  exists r, fst (fetchNearbyOsmPlaces origin options w) = Returns r.
Proof.
  intros Hd Hels Hall.
  destruct (run_cases origin options w) as [[_ Hrun]|[(_ & c & _ & Hrun)|(_ & _ & Hrun)]];
    rewrite Hrun; [eexists; reflexivity|eexists; reflexivity|].
  rewrite fetchFresh_run.
  destruct (overpassFetch (q origin options) w) as [[d'|e] w1]; cbn in Hd; [|discriminate].
  inversion Hd; subst d'.
  destruct (mapElements_well_shaped els Hall) as [ps Hps].
  unfold mapped. rewrite Hels. cbn [bindOutcome]. rewrite Hps. cbn. eauto.
Qed.

End ShapeProperties.

(** ** The callers *)

Section PageProperties.
Context `{Host}.

Import RestaurantsPage.

Lemma fetchPlaces_marks_key location searchQuery s w :
  inFlightRef s = false ->
  inFlightRef (fst (fetchPlaces (Some location) searchQuery s w)) = false /\
  lastRequestKeyRef (fst (fetchPlaces (Some location) searchQuery s w))
  = Some (requestKey location searchQuery).
Proof.
  intros Hidle. unfold fetchPlaces. rewrite Hidle.
  case_bool_decide as Hkey; [cbn; auto|].
  destruct (fst (fetchNearbyOsmPlaces _ _ w)); cbn; auto.
Qed.

(** X13: the restaurants page asks once per request key.  After
    [fetchPlaces] has run for a location and a search text, running it again
    for a location that agrees to five decimals and a text that agrees once
    trimmed and lower-cased does nothing: no request, no change of state.
    That holds after a failure too, so Refresh cannot retry a failed load
    until the location or the text changes. *)
Theorem X13_one_fetch_per_request_key location searchQuery s w location' searchQuery' w' :
  inFlightRef s = false ->
  requestKey location' searchQuery' = requestKey location searchQuery ->
  fetchPlaces (Some location') searchQuery'
    (fst (fetchPlaces (Some location) searchQuery s w)) w'
  = (fst (fetchPlaces (Some location) searchQuery s w), w').
Proof.
  intros Hidle Hkey.
  destruct (fetchPlaces_marks_key location searchQuery s w Hidle) as [Hfl Hlast].
  unfold fetchPlaces at 1. rewrite Hfl, Hlast, Hkey.
  case_bool_decide; [reflexivity|congruence].
Qed.

(** X14: what a failed load leaves on the restaurants page: the places shown
    before, the message of the error thrown (never the fall-back text), and
    both the loading flag and the in-flight flag cleared. *)
Theorem X14_failed_load_keeps_the_places location searchQuery s w e :
  inFlightRef s = false ->
  lastRequestKeyRef s <> Some (requestKey location searchQuery) ->
  fst (fetchNearbyOsmPlaces location
         (Options.make (num 7000) [restaurant] (Some (num 10)) (Some searchQuery)) w)
  = Throws e ->
  let s' := fst (fetchPlaces (Some location) searchQuery s w) in
  places s' = places s /\
  (exists m, e = ErrorObject m /\ placesError s' = Some m) /\
  loadingPlaces s' = false /\
  inFlightRef s' = false.
Proof.
  intros Hidle Hkey Hthrow s'. subst s'. unfold fetchPlaces. rewrite Hidle.
  case_bool_decide; [congruence|]. rewrite Hthrow. cbn.
  destruct (fetch_throws _ _ _ _ Hthrow) as [m ->]. repeat split. exists m. auto.
Qed.

End PageProperties.

Module StandFacts.
Import BusPage.

Lemma find_first {A} (f : A -> bool) l x :
  find f l = Some x ->
  exists pre post, l = pre ++ x :: post /\ Forall (fun y => f y = false) pre /\ f x = true.
Proof.
  induction l as [|y l IH]; [discriminate|]. cbn [find].
  destruct (f y) eqn:Hy.
  - intros Hx. inversion Hx; subst. exists [], l. repeat split; auto.
  - intros Hx. destruct (IH Hx) as (pre & post & -> & Hpre & Hfx).
    exists (y :: pre), post. repeat split; auto.
Qed.

Lemma find_nothing {A} (f : A -> bool) l :
  find f l = None -> Forall (fun y => f y = false) l.
Proof.
  induction l as [|y l IH]; [constructor|]. cbn [find].
  destruct (f y) eqn:Hy; [discriminate|]. intros Hn. constructor; auto.
Qed.

End StandFacts.

(** X15: the stand the bus page recommends.  There is none exactly when no
    stand was found.  Otherwise it is one of the stands found: the first
    that is tagged [amenity=bus_station] when there is one, however many bus
    stops come before it, and the first of the list when there is none. *)
Theorem X15_bestStand (stands : list OsmPlace.t) :
  (BusPage.bestStand stands = None <-> stands = []) /\
  (forall p, BusPage.bestStand stands = Some p ->
     In p stands /\
     (BusPage.isBusStation p = true ->
      exists pre post,
        stands = pre ++ p :: post /\
        Forall (fun x => BusPage.isBusStation x = false) pre) /\
     (BusPage.isBusStation p = false ->
      hd_error stands = Some p /\
      Forall (fun x => BusPage.isBusStation x = false) stands)).
Proof.
  split.
  - destruct stands; cbn; split; congruence.
  - intros p Hp. destruct stands as [|first rest]; [discriminate|].
    unfold BusPage.bestStand in Hp.
    destruct (find BusPage.isBusStation (first :: rest)) as [x|] eqn:Hfind.
    + inversion Hp; subst x.
      destruct (StandFacts.find_first _ _ _ Hfind) as (pre & post & Heq & Hpre & Hst).
      split; [rewrite Heq; apply List.in_elt|]. split.
      * intros _. eauto.
      * congruence.
    + inversion Hp; subst p. pose proof (StandFacts.find_nothing _ _ Hfind) as Hnone.
      split; [left; reflexivity|]. split.
      * intros Hst. inversion Hnone; congruence.
      * intros _. split; [reflexivity|exact Hnone].
Qed.

(** ** [getOsmDirectionsUrl] *)

Module UriFacts.
Import Uri.

Lemma encode_append a b :
  encodeURIComponent (a +:+ b) = encodeURIComponent a +:+ encodeURIComponent b.
Proof.
  induction a as [|c a IH]; [reflexivity|].
  cbn [String.append encodeURIComponent]. rewrite IH.
  rewrite StringFacts.append_assoc. reflexivity.
Qed.

Lemma chars_append a b :
  list_ascii_of_string (a +:+ b) = list_ascii_of_string a ++ list_ascii_of_string b.
Proof. induction a as [|c a IH]; cbn; [reflexivity|]. rewrite IH. reflexivity. Qed.

Lemma encodeChar_safe c : Forall safe (list_ascii_of_string (encodeChar c)).
Proof.
  assert (Hall : forallb (fun x => unreserved x || Ascii.eqb x "%")
                   (list_ascii_of_string (encodeChar c)) = true).
  { destruct c as [[] [] [] [] [] [] [] []]; reflexivity. }
  apply List.Forall_forall. intros x Hx.
  rewrite List.forallb_forall in Hall. specialize (Hall x Hx).
  apply orb_true_iff in Hall as [Hu|Hp]; [left; exact Hu|right].
  apply Ascii.eqb_eq. exact Hp.
Qed.

Lemma encode_safe s : Forall safe (list_ascii_of_string (encodeURIComponent s)).
Proof.
  induction s as [|c s IH]; [constructor|].
  cbn [encodeURIComponent]. rewrite chars_append. apply Forall_app.
  split; [apply encodeChar_safe|exact IH].
Qed.

End UriFacts.

(** X16: the route parameter of the directions link is the encoding of
    [lat,lng;lat,lng]: the separator written by hand is what
    [encodeURIComponent] makes of a semicolon.  Whatever the coordinates
    print as, the parameter holds only unreserved characters and percent
    signs, so nothing in it can end the parameter or start another. *)
Theorem X16_directions_route `{Host} (origin destination : OsmLatLng.t) :
  let route :=
    Uri.encodeURIComponent (latLng origin +:+ ";" +:+ latLng destination) in
  getOsmDirectionsUrl origin destination
  = "https://www.openstreetmap.org/directions?engine=fossgis_osrm_car&route=" +:+ route /\
  Forall Uri.safe (list_ascii_of_string route).
Proof.
  intros route. subst route. split; [|apply UriFacts.encode_safe].
  unfold getOsmDirectionsUrl. rewrite !UriFacts.encode_append. reflexivity.
Qed.

(** * Closed instances *)

#[local] Existing Instance DecimalHost.host.

Import Sample.

(** The spec's own examples, run on the model. *)
Example address_join :
  fmap (M := option) OsmPlace.address
    (match mapElement cafe with Returns p => p | Throws _ => None end)
  = Some "12, Main St, Springfield".
Proof. vm_compute. reflexivity. Qed.

Example centre_fallback :
  (latOf clinic, lngOf clinic) = (VNum (num 1), VNum (num 2)).
Proof. vm_compute. reflexivity. Qed.

Example cafe_filter :
  map OsmPlace.name
    (filtered "cafe" (compact [ match mapElement cafe with Returns p => p | Throws _ => None end;
                                match mapElement clinic with Returns p => p | Throws _ => None end ]))
  = ["Grand Cafe"].
Proof. vm_compute. reflexivity. Qed.

Example first_key :
  cacheKey origin (ask [restaurant; hospital] None (Some " CAFE "))
  = "12.00000,77.00000|7000|restaurant,hospital|cafe".
Proof. vm_compute. reflexivity. Qed.

Example failover :
  let net n := match n with 2%nat => healthy n | _ => down n end in
  let run := overpassFetch "q" (start net) in
  fst run = Returns (response [cafe; clinic]) /\
  trace (snd run) =
    [ Request "https://overpass-api.de/api/interpreter" "data=q"; Sleep 400;
      Request "https://overpass.kumi.systems/api/interpreter" "data=q"; Sleep 800;
      Request "https://overpass.nchc.org.tw/api/interpreter" "data=q" ].
Proof. vm_compute. split; reflexivity. Qed.

(** A [null] body is no object at all: reading [elements] off it throws. *)
Example null_body_throws : mapped VNull = Throws typeError.
Proof. reflexivity. Qed.

(** ** C1: a cached answer is not cut to the caller's limit *)

(** C1 at its failing input.  A first call with limit 50 stores the two
    places the network returned.  One second later the same request with
    limit 1 (which the clamp leaves at 1) is answered from the cache with
    both places, and no request is sent. *)
Theorem C1_cached_answer_exceeds_limit :
  let second :=
    fetchNearbyOsmPlaces origin (ask [restaurant; hospital] (Some (num 1)) None)
      (advance 1000 afterFirst) in
  limit (ask [restaurant; hospital] (Some (num 1)) None) = num 1 /\
  fst firstRun = Returns served /\
  fst second = Returns served /\
  length served = 2%nat /\
  requests (snd second) = requests afterFirst.
Proof. vm_compute. repeat split; reflexivity. Qed.

(** ** C2 *)

(** The same two categories in two orders: two keys. *)
Lemma C2_counterexample :
  Permutation [restaurant; hospital] [hospital; restaurant] /\
  cacheKey origin (ask [restaurant; hospital] None None)
  <> cacheKey origin (ask [hospital; restaurant] None None).
Proof. split; [apply perm_swap|]. vm_compute. discriminate. Qed.

Lemma C2_witness :
  cacheKey nearby (ask [restaurant; hospital] (Some (num 5)) (Some "Cafe"))
  = cacheKey origin (ask [restaurant; hospital] None (Some " cafe ")).
Proof.
  apply (proj2 (C2_fingerprint_keeps_category_order origin
                  (ask [restaurant; hospital] None (Some " cafe ")))
               nearby (ask [restaurant; hospital] (Some (num 5)) (Some "Cafe")));
    vm_compute; try reflexivity.
  split; reflexivity.
Defined.

(** ** C3 and C4 *)

Lemma C3_witness :
  fetchNearbyOsmPlaces nearby (ask [restaurant; hospital] (Some (num 1)) None)
    (advance 59999 afterFirst)
  = (Returns served, advance 59999 afterFirst).
Proof.
  apply (C3_limit_not_in_fingerprint origin
           (ask [restaurant; hospital] (Some (num 50)) None)
           nearby (ask [restaurant; hospital] (Some (num 1)) None)
           (start healthy) served afterFirst (now afterFirst)
           (advance 59999 afterFirst)).
  - vm_compute. reflexivity.
  - vm_compute. reflexivity.
  - vm_compute. reflexivity.
  - reflexivity.
  - reflexivity.
  - vm_compute. reflexivity.
  - vm_compute. discriminate.
  - reflexivity.
  - vm_compute. discriminate.
  - vm_compute. reflexivity.
Defined.

Lemma C4_witness :
  fetchNearbyOsmPlaces origin (ask [restaurant; hospital] (Some (num 50)) None)
    (advance 59000 afterFirst)
  = (Returns served, advance 59000 afterFirst).
Proof.
  apply (C4_second_call_served_from_cache origin
           (ask [restaurant; hospital] (Some (num 50)) None)
           (start healthy) served afterFirst (now (start healthy))
           (advance 59000 afterFirst)).
  - vm_compute. reflexivity.
  - vm_compute. discriminate.
  - reflexivity.
  - vm_compute. discriminate.
  - vm_compute. reflexivity.
Defined.

(** ** C5 *)

(** With every mirror down the run ends on a 1200 ms pause: a third pause,
    after the last request. *)
Lemma C5_counterexample :
  let run := overpassFetch "q" (start down) in
  (forall n, failure (down n) = Some (ErrorObject "Overpass error: 504")) /\
  fst run = Throws (ErrorObject "Overpass error: 504") /\
  trace (snd run) = pausesBetweenOnly "q" ++ [Sleep 1200] /\
  trace (snd run) <> pausesBetweenOnly "q" /\
  now (snd run) - now (start down) = 3 * 300 + 400 + 800 + 1200.
Proof.
  vm_compute. repeat split; try reflexivity. discriminate.
Qed.

Lemma C5_witness :
  trace (snd (overpassFetch "q" (start down)))
  = [ Request (endpointOf 0) "data=q"; Sleep 400;
      Request (endpointOf 1) "data=q"; Sleep 800;
      Request (endpointOf 2) "data=q"; Sleep 1200 ].
Proof.
  apply (C5_exhaustion_three_requests_three_pauses "q" (start down)
           (ErrorObject "Overpass error: 504") (ErrorObject "Overpass error: 504")
           (ErrorObject "Overpass error: 504"));
    vm_compute; reflexivity.
Defined.

(** ** C6 *)


(** ** C7 *)

(** The name carries the tag without its blanks, so it is not the tag; and a
    blank name hides the brand behind it. *)
Lemma C7_counterexample :
  (exists p,
      mapElement padded = Returns (Some p) /\
      firstNonEmpty (nameTags (tagsOf padded)) = VStr " Cafe " /\
      OsmPlace.name p = "Cafe" /\
      OsmPlace.name p <> " Cafe ") /\
  firstNonEmpty (nameTags (tagsOf blank)) = VStr "  " /\
  Js.prop (tagsOf blank) "brand" = VStr "Shell" /\
  mapElement blank = Returns None.
Proof.
  split; [eexists; vm_compute; repeat split; discriminate|].
  vm_compute. repeat split; reflexivity.
Qed.

Lemma C7_witness :
  exists s,
    firstNonEmpty (nameTags (tagsOf padded)) = VStr s /\
    "Cafe" = JsString.trim s /\ "Cafe" <> "".
Proof.
  apply (proj1 C7_display_name padded
           (OsmPlace.make "node/9" "Cafe" "" (num 1) (num 2) (VObj [("name", VStr " Cafe ")]))).
  vm_compute. reflexivity.
Defined.

(** ** C8 *)

(** An element without a point of its own and with a centre at (1, 2) is
    placed at (5, 2), which is neither; an element with no pair in either
    source is kept all the same; and so is one whose latitude is
    [Infinity], where neither source has a pair of finite numbers. *)
Lemma C8_counterexample :
  (directPair mixed = None /\
   centerPair mixed = Some (num 1, num 2) /\
   exists p,
     mapElement mixed = Returns (Some p) /\
     OsmPlace.lat p = num 5 /\ OsmPlace.lng p = num 2 /\
     (OsmPlace.lat p, OsmPlace.lng p) <> (num 1, num 2)) /\
  (directPair halves = None /\
   centerPair halves = None /\
   exists p, mapElement halves = Returns (Some p)) /\
  (finitePair (directPair boundless) = false /\
   finitePair (centerPair boundless) = false /\
   exists p,
     mapElement boundless = Returns (Some p) /\
     OsmPlace.lat p = Infinity false /\ OsmPlace.lng p = num 2).
Proof.
  split; [|split].
  - split; [reflexivity|]. split; [reflexivity|].
    eexists. vm_compute. repeat split. discriminate.
  - split; [reflexivity|]. split; [reflexivity|].
    eexists. vm_compute. reflexivity.
  - split; [reflexivity|]. split; [reflexivity|].
    eexists. vm_compute. repeat split.
Qed.

(** The mixed element keeps its own latitude and takes its centre's
    longitude; the way takes both from its centre. *)
Lemma C8_witness :
  (latOf mixed = VNum (num 5) /\ lngOf mixed = VNum (num 2)) /\
  (latOf clinic = VNum (num 1) /\ lngOf clinic = VNum (num 2)).
Proof.
  split.
  - destruct (C8_coordinate_per_component mixed eq_refl) as (_ & _ & Hmixed & _).
    refine (Hmixed (num 5) (num 2) _ _ _); reflexivity.
  - destruct (C8_coordinate_per_component clinic eq_refl) as (_ & Hcentre & _).
    refine (Hcentre (num 1) (num 2) _ _ _ _); reflexivity.
Defined.

(** ** C9: a [null] body is surfaced as an error *)

(** The response [{}]. *)
Example empty_object_response :
  fst (fetchNearbyOsmPlaces origin (ask [restaurant] None None) (start hollow))
  = Returns [].
Proof.
  refine (malformed_response_is_empty origin (ask [restaurant] None None)
            (start hollow) (VObj [])
            (snd (overpassFetch (q origin (ask [restaurant] None None)) (start hollow)))
            _ _ _ _).
  - vm_compute. reflexivity.
  - vm_compute. reflexivity.
  - reflexivity.
  - intros l. vm_compute. discriminate.
Qed.

(** C9: the body [null], delivered with status 200, has no [elements]
    array, yet the call does not return the empty list: reading the
    property off [null] throws, and the call rejects with that [TypeError]
    after a single request and stores nothing.  The body [{}] beside it is
    answered with the empty list. *)
Theorem C9_null_body_is_rejected :
  let options := ask [restaurant] None None in
  payload (void 0%nat) = Some VNull /\
  (forall l, Js.prop VNull "elements" <> VArr l) /\
  fst (fetchNearbyOsmPlaces origin options (start void)) = Throws typeError /\
  requests (snd (fetchNearbyOsmPlaces origin options (start void))) = 1%nat /\
  cache (snd (fetchNearbyOsmPlaces origin options (start void)))
    !! cacheKey origin options = None /\
  fst (fetchNearbyOsmPlaces origin options (start hollow)) = Returns [].
Proof.
  intros options. split; [reflexivity|]. split; [intros l; discriminate|].
  split; [vm_compute; reflexivity|]. split; [vm_compute; reflexivity|].
  split; [vm_compute; reflexivity|]. vm_compute. reflexivity.
Qed.

(** ** C10 *)

Lemma C10_witness :
  let options := ask [restaurant; hospital] None (Some " CAFE ") in
  let m := match mapped (response [cafe; clinic]) with Returns m => m | Throws _ => [] end in
  queryLower options = "cafe" /\
  fst (fetchNearbyOsmPlaces origin options (start healthy))
  = Returns (slice0 (List.filter (matchesQuery (queryLower options)) m) (limit options)).
Proof.
  intros options m. split; [reflexivity|].
  refine (proj1 (C10_text_filter origin options " CAFE " (start healthy)
                   (response [cafe; clinic])
                   (snd (overpassFetch (q origin options) (start healthy))) m
                   _ _ _ _ _ _)).
  - reflexivity.
  - vm_compute. discriminate.
  - discriminate.
  - vm_compute. reflexivity.
  - vm_compute. reflexivity.
  - vm_compute. reflexivity.
Defined.

(** ** Closed instances of the further properties *)

Import Sample2.

Example station_preferred : BusPage.bestStand [stop; station] = Some station.
Proof. reflexivity. Qed.

Example directions_link :
  getOsmDirectionsUrl origin (OsmLatLng.make (num 13) (num (-78)))
  = "https://www.openstreetmap.org/directions?engine=fossgis_osrm_car&route=12%2C77%3B13%2C-78".
Proof. vm_compute. reflexivity. Qed.

(** Two failures, a rate limit and a time-out, then the answer. *)
Lemma X1_witness :
  fst (overpassFetch "q" (start flaky)) = Returns (response []) /\
  requests (snd (overpassFetch "q" (start flaky))) = (requests (start flaky) + 2 + 1)%nat /\
  trace (snd (overpassFetch "q" (start flaky)))
    = trace (start flaky) ++ failedAttempts "q" 0 2
        ++ [Request (endpointOf 2) (Form.body "q")].
Proof.
  refine (X1_first_answer_wins "q" (start flaky) 2 (response []) _ _ _).
  - lia.
  - intros i Hi. destruct i as [|[|i]]; [vm_compute; discriminate|vm_compute; discriminate|lia].
  - vm_compute. reflexivity.
Defined.

Lemma X2_witness :
  (exists m, ErrorObject "Overpass error: 504" = ErrorObject m) /\
  requests (snd (overpassFetch "q" (start down))) = (requests (start down) + 3)%nat /\
  (forall i, (i < 3)%nat -> failure (network (start down) (requests (start down) + i)) <> None).
Proof.
  refine (X2_throws_only_after_three_failures "q" (start down)
            (ErrorObject "Overpass error: 504") _).
  vm_compute. reflexivity.
Defined.

Lemma X6_witness :
  let options := ask [restaurant; hospital] (Some (num 50)) None in
  (length served <= 50)%nat /\
  (Options.limit options = None -> (length served <= 30)%nat) /\
  (Options.limit options = Some NaN -> served = []).
Proof.
  intros options.
  refine (X6_fresh_result_is_bounded origin options (start healthy) served _ _).
  - vm_compute. reflexivity.
  - vm_compute. discriminate.
Defined.

Lemma X7_witness :
  let options := ask [restaurant; hospital] (Some (num 50)) None in
  exists d els kept,
    fst (overpassFetch (q origin options) (start healthy)) = Returns d /\
    elements d = Returns els /\
    sublist kept els /\
    Forall2 (fun el p => mapElement el = Returns (Some p)) kept served.
Proof.
  intros options.
  refine (X7_result_follows_the_response origin options (start healthy) served _ _).
  - vm_compute. reflexivity.
  - vm_compute. discriminate.
Defined.

Lemma X8_witness :
  cacheKey origin (Options.make (num 7000) [restaurant] (Some (num 10)) (Some "   "))
  = cacheKey origin (Options.make (num 7000) [restaurant] (Some (num 10)) None) /\
  fetchNearbyOsmPlaces origin
    (Options.make (num 7000) [restaurant] (Some (num 10)) (Some "   ")) (start healthy)
  = fetchNearbyOsmPlaces origin
      (Options.make (num 7000) [restaurant] (Some (num 10)) None) (start healthy).
Proof.
  refine (X8_blank_query_is_no_query origin (num 7000) [restaurant] (Some (num 10)) "   "
            (start healthy) _).
  reflexivity.
Defined.

(** A house with a town and a village and no city: the town is its
    locality. *)
Lemma X9_witness :
  let p :=
    OsmPlace.make "node/31" "Cottage" "4, Hilltown, KA" (num 12) (num 77) (tagsOf cottage) in
  OsmPlace.address p = JsString.join ", " (addressLine (tagsOf cottage)) /\
  (OsmPlace.address p = "" <-> addressLine (tagsOf cottage) = []).
Proof.
  intros p.
  refine (X9_address_of_textual_tags cottage p _ _).
  - vm_compute. reflexivity.
  - unfold addressKeys. cbn.
    repeat (constructor; [first [left; reflexivity|right; eexists; reflexivity]|]).
    constructor.
Defined.

Lemma X10_witness :
  exists m, ErrorObject "Overpass error: 504" = ErrorObject m /\
            forall fallback, messageOf (ErrorObject "Overpass error: 504") fallback = m.
Proof.
  refine (X10_rejects_with_an_Error_only origin (ask [restaurant] None None) (start down)
            (ErrorObject "Overpass error: 504") _).
  vm_compute. reflexivity.
Defined.

Lemma X11_witness :
  let options := ask [restaurant] None None in
  let w2 := snd (fetchNearbyOsmPlaces origin options (start down)) in
  (requests w2 < requests (snd (fetchNearbyOsmPlaces origin options w2)))%nat.
Proof.
  intros options w2.
  refine (X11_retry_after_a_failure origin options (start down)
            (ErrorObject "Overpass error: 504") w2 _ _ _).
  - vm_compute. reflexivity.
  - reflexivity.
  - vm_compute. discriminate.
Defined.

(** A load that failed while the mirrors were down is not tried again for
    the same place and text once they are up. *)
Lemma X13_witness :
  let s1 := fst (RestaurantsPage.fetchPlaces (Some origin) "Pizza" idle (start down)) in
  RestaurantsPage.fetchPlaces (Some nearby) " pizza " s1 (start healthy) = (s1, start healthy).
Proof.
  intros s1.
  refine (X13_one_fetch_per_request_key origin "Pizza" idle (start down) nearby " pizza "
            (start healthy) _ _).
  - reflexivity.
  - vm_compute. reflexivity.
Defined.

Lemma X14_witness :
  let s' := fst (RestaurantsPage.fetchPlaces (Some origin) "Pizza" idle (start down)) in
  RestaurantsPage.places s' = RestaurantsPage.places idle /\
  (exists m, ErrorObject "Overpass error: 504" = ErrorObject m /\
             RestaurantsPage.placesError s' = Some m) /\
  RestaurantsPage.loadingPlaces s' = false /\
  RestaurantsPage.inFlightRef s' = false.
Proof.
  refine (X14_failed_load_keeps_the_places origin "Pizza" idle (start down)
            (ErrorObject "Overpass error: 504") _ _ _).
  - reflexivity.
  - discriminate.
  - vm_compute. reflexivity.
Defined.

Ltac shaped :=
  unfold wellShaped, nameTags, addressKeys; cbn;
  repeat match goal with
         | |- _ /\ _ => split
         | |- Forall _ [] => constructor
         | |- Forall _ (_ :: _) => constructor
         | |- textual _ => first [left; reflexivity | right; eexists; reflexivity]
         | |- _ = _ => reflexivity
         | |- True => exact I
         end.

Lemma cafe_wellShaped : wellShaped cafe.
Proof. shaped. Qed.

Lemma clinic_wellShaped : wellShaped clinic.
Proof. shaped. Qed.

Lemma X17_witness :
  exists o,
    mapElement clinic = Returns o /\
    (o = None <->
     Js.isNumber (latOf clinic) && Js.isNumber (lngOf clinic) = false \/ trimmedName clinic = "") /\
    (forall p, o = Some p -> OsmPlace.name p = trimmedName clinic).
Proof.
  refine (X17_well_shaped_element_never_throws clinic _).
  shaped.
Defined.

Lemma X18_witness :
  let options := ask [restaurant; hospital] (Some (num 50)) None in
  exists r, fst (fetchNearbyOsmPlaces origin options (start healthy)) = Returns r.
Proof.
  intros options.
  refine (X18_well_shaped_response_is_served origin options (start healthy)
            (response [cafe; clinic]) [cafe; clinic] _ _ _).
  - vm_compute. reflexivity.
  - reflexivity.
  - constructor; [exact cafe_wellShaped|]. constructor; [exact clinic_wellShaped|]. constructor.
Defined.
